(** * GDC-H credentials: a shallow embedding of
      [google/oauth2/gdch_credentials.py] and the properties of its two-step
      token refresh and of its derivation operations. *)

From Stdlib Require Import ZArith Lia.
From stdpp Require Import gmap strings list pretty.

#[local] Set Warnings "-register-all".
#[local] Open Scope Z_scope.

(** ** Python text and bytes *)

(** A Python 3 [str] is a sequence of Unicode code points, a [bytes] object a
    sequence of octets.  Both are lists of integers; the ranges
    ([0 .. 0x10FFFF], [0 .. 255]) are invariants of the Python values. *)
Definition pystr := list Z.
Definition pybytes := list Z.

(** A string literal of the source (all of them are ASCII). *)
Definition str (s : string) : pystr :=
  (fun a => Z.of_N (Ascii.N_of_ascii a)) <$> String.list_ascii_of_string s.

(** [str.encode()] with its default codec, UTF-8, one code point at a time
    (RFC 3629, written with quotients and remainders instead of shifts and
    masks).  Surrogates (and integers that are no code point) have no
    encoding: Python raises [UnicodeEncodeError]. *)
Definition utf8_encode_char (c : Z) : option pybytes :=
  if c <? 0 then None
  else if c <? 0x80 then Some [c]
  else if c <? 0x800 then Some [0xC0 + c / 64; 0x80 + c mod 64]
  else if c <? 0x10000 then
    if (0xD800 <=? c) && (c <=? 0xDFFF) then None
    else Some [0xE0 + c / 4096; 0x80 + (c / 64) mod 64; 0x80 + c mod 64]
  else if c <? 0x110000 then
    Some [0xF0 + c / 262144; 0x80 + (c / 4096) mod 64;
          0x80 + (c / 64) mod 64; 0x80 + c mod 64]
  else None.

Fixpoint utf8_encode (s : pystr) : option pybytes :=
  match s with
  | [] => Some []
  | c :: s' =>
      match utf8_encode_char c, utf8_encode s' with
      | Some bs, Some bs' => Some (bs ++ bs')
      | _, _ => None
      end
  end.

(** [bytes.decode()] with its default codec, UTF-8, strict: a sequence is
    accepted only when it is the encoding of the code point it denotes (no
    overlong forms, no surrogates, nothing above 0x10FFFF). *)
Definition utf8_accept (c : Z) (bs : pybytes) : bool :=
  bool_decide (utf8_encode_char c = Some bs).

Fixpoint utf8_decode (bs : pybytes) : option pystr :=
  match bs with
  | [] => Some []
  | b0 :: r0 =>
      if b0 <? 0x80 then
        if utf8_accept b0 [b0] then cons b0 <$> utf8_decode r0 else None
      else if b0 <? 0xE0 then
        match r0 with
        | b1 :: r1 =>
            let c := (b0 - 0xC0) * 64 + (b1 - 0x80) in
            if utf8_accept c [b0; b1] then cons c <$> utf8_decode r1 else None
        | _ => None
        end
      else if b0 <? 0xF0 then
        match r0 with
        | b1 :: b2 :: r2 =>
            let c := (b0 - 0xE0) * 4096 + (b1 - 0x80) * 64 + (b2 - 0x80) in
            if utf8_accept c [b0; b1; b2] then cons c <$> utf8_decode r2
            else None
        | _ => None
        end
      else
        match r0 with
        | b1 :: b2 :: b3 :: r3 =>
            let c := (b0 - 0xF0) * 262144 + (b1 - 0x80) * 4096
                     + (b2 - 0x80) * 64 + (b3 - 0x80) in
            if utf8_accept c [b0; b1; b2; b3] then cons c <$> utf8_decode r3
            else None
        | _ => None
        end
  end.

(** ** Base64 (the [base64] module of the standard library, RFC 4648) *)

(** The character of a 6-bit value in the standard alphabet
    [A-Z a-z 0-9 + /]. *)
Definition b64_char (i : Z) : Z :=
  if i <? 26 then 65 + i
  else if i <? 52 then 97 + (i - 26)
  else if i <? 62 then 48 + (i - 52)
  else if i =? 62 then 43
  else 47.

Definition b64_pad : Z := 61.

Definition b64_index (c : Z) : option Z :=
  if (65 <=? c) && (c <=? 90) then Some (c - 65)
  else if (97 <=? c) && (c <=? 122) then Some (c - 97 + 26)
  else if (48 <=? c) && (c <=? 57) then Some (c - 48 + 52)
  else if c =? 43 then Some 62
  else if c =? 47 then Some 63
  else None.

(** [base64.b64encode]: three octets give four characters; a last group of
    one or two octets is padded with [=]. *)
Fixpoint b64encode (bs : pybytes) : pybytes :=
  match bs with
  | [] => []
  | [b0] => [b64_char (b0 / 4); b64_char (b0 mod 4 * 16); b64_pad; b64_pad]
  | [b0; b1] =>
      [b64_char (b0 / 4); b64_char (b0 mod 4 * 16 + b1 / 16);
       b64_char (b1 mod 16 * 4); b64_pad]
  | b0 :: b1 :: b2 :: r =>
      b64_char (b0 / 4) :: b64_char (b0 mod 4 * 16 + b1 / 16)
      :: b64_char (b1 mod 16 * 4 + b2 / 64) :: b64_char (b2 mod 64)
      :: b64encode r
  end.

(** [base64.b64decode] on input made of whole, correctly padded groups. *)
Fixpoint b64decode (cs : pybytes) : option pybytes :=
  match cs with
  | [] => Some []
  | c0 :: c1 :: c2 :: c3 :: r =>
      i0 ← b64_index c0; i1 ← b64_index c1;
      if bool_decide (c3 = b64_pad ∧ r = []) then
        if bool_decide (c2 = b64_pad) then Some [i0 * 4 + i1 / 16]
        else i2 ← b64_index c2;
             Some [i0 * 4 + i1 / 16; i1 mod 16 * 16 + i2 / 4]
      else
        i2 ← b64_index c2; i3 ← b64_index c3; bs ← b64decode r;
        Some (i0 * 4 + i1 / 16 :: i1 mod 16 * 16 + i2 / 4
              :: i2 mod 4 * 64 + i3 :: bs)
  | _ => None
  end.

(** What the receiver of a base64 text does to read it: the text is ASCII,
    its octets are base64-decoded, and the result is read as UTF-8. *)
Definition b64decode_str (s : pystr) : option pystr :=
  cs ← utf8_encode s; bs ← b64decode cs; utf8_decode bs.

Definition is_byte (b : Z) : Prop := 0 <= b < 256.
Definition is_ascii (c : Z) : Prop := 0 <= c < 128.

(** ** JSON values, as [json.loads] gives them *)

(** A float is kept as mantissa and exponent; no operation of this module
    inspects a number. *)
Inductive json :=
| JNull
| JBool (b : bool)
| JInt (n : Z)
| JFloat (m e : Z)
| JStr (s : pystr)
| JList (l : list json)
| JDict (d : gmap pystr json).

(** ** Exceptions *)

(** The exceptions this module raises or lets through.  [RefreshError] is
    [google.auth.exceptions.RefreshError(message, payload)], with the
    [__cause__] that [six.raise_from] sets; [OtherError] stands for any other
    exception class of a collaborator (a transport error, say). *)
Inductive exn :=
| KeyError (key : pystr)
| TypeError
| AttributeError
| UnicodeEncodeError
| UnicodeDecodeError
| ReferenceError
| RefreshError (message : pystr) (payload : json) (cause : option exn)
| OtherError (name : pystr) (args : list json).

(** The outcome of an expression: an exception raised or a value. *)
Definition result (A : Type) : Type := exn + A.

(** [v[key]] for a string key: only a dict can be indexed by a string, and a
    missing key is a [KeyError]; any other value gives a [TypeError]. *)
Definition getitem (v : json) (key : pystr) : result json :=
  match v with
  | JDict d =>
      match d !! key with
      | Some x => inr x
      | None => inl (KeyError key)
      end
  | _ => inl TypeError
  end.

(** [k8s_response_data["status"]["token"]] (line 85). *)
Definition status_token (k8s_response_data : json) : result json :=
  match getitem k8s_response_data (str "status") with
  | inr status => getitem status (str "token")
  | inl e => inl e
  end.

(** [v.encode()]: only a [str] has the method. *)
Definition encode (v : json) : result pybytes :=
  match v with
  | JStr s =>
      match utf8_encode s with
      | Some bs => inr bs
      | None => inl UnicodeEncodeError
      end
  | _ => inl AttributeError
  end.

(** [bs.decode()]. *)
Definition decode (bs : pybytes) : result pystr :=
  match utf8_decode bs with
  | Some s => inr s
  | None => inl UnicodeDecodeError
  end.

(** [base64.b64encode(k8s_token.encode()).decode()] (line 95). *)
Definition subject_token (k8s_token : json) : result pystr :=
  match encode k8s_token with
  | inr bs => decode (b64encode bs)
  | inl e => inl e
  end.

(** ** Module constants (lines 28-31) and [http_client.CREATED] *)

Definition TOKEN_EXCHANGE_TYPE : pystr :=
  str "urn:ietf:params:oauth:token-type:token-exchange".
Definition ACCESS_TOKEN_TOKEN_TYPE : pystr :=
  str "urn:ietf:params:oauth:token-type:access_token".
Definition JWT_TOKEN_TYPE : pystr :=
  str "urn:ietf:params:oauth:token-type:jwt".
Definition SERVICE_ACCOUNT_TOKEN_TYPE : pystr :=
  str "urn:k8s:params:oauth:token-type:serviceaccount".

Definition CREATED : Z := 201.

(** ** The credential object *)

(** A [datetime], as seconds since the epoch. *)
Definition datetime := Z.

(** The attributes of a [Credentials] instance: the token state of the base
    class and the configuration that [__init__] stores. *)
Record Credentials := {
  token : option pystr;
  expiry : option datetime;
  _k8s_ca_cert_path : pystr;
  _k8s_cert_path : pystr;
  _k8s_key_path : pystr;
  _k8s_token_endpoint : pystr;
  _ais_ca_cert_path : pystr;
  _ais_token_endpoint : pystr;
  _audience : pystr;
  _quota_project_id : option pystr;
}.

(** Modelled from the spec: the initialiser of the base class
    ([google.auth.credentials.Credentials.__init__], reached through
    [super(Credentials, self).__init__()] on line 61) is defined in another
    module ([google/auth/credentials.py]); by the spec the token state
    "starts empty": the token is absent until the first refresh and so is
    its expiry. *)
Definition base__init__ : option pystr * option datetime := (None, None).

(** [Credentials.__init__] (lines 38-69). *)
Definition __init__
    (k8s_ca_cert_path k8s_cert_path k8s_key_path k8s_token_endpoint
     ais_ca_cert_path ais_token_endpoint audience : pystr)
    (quota_project_id : option pystr) : Credentials :=
  {| token := base__init__.1;
     expiry := base__init__.2;
     _k8s_ca_cert_path := k8s_ca_cert_path;
     _k8s_cert_path := k8s_cert_path;
     _k8s_key_path := k8s_key_path;
     _k8s_token_endpoint := k8s_token_endpoint;
     _ais_ca_cert_path := ais_ca_cert_path;
     _ais_token_endpoint := ais_token_endpoint;
     _audience := audience;
     _quota_project_id := quota_project_id |}.

(** [self.token = v] and [self.expiry = v]. *)
Definition set_token (v : option pystr) (c : Credentials) : Credentials :=
  {| token := v;
     expiry := expiry c;
     _k8s_ca_cert_path := _k8s_ca_cert_path c;
     _k8s_cert_path := _k8s_cert_path c;
     _k8s_key_path := _k8s_key_path c;
     _k8s_token_endpoint := _k8s_token_endpoint c;
     _ais_ca_cert_path := _ais_ca_cert_path c;
     _ais_token_endpoint := _ais_token_endpoint c;
     _audience := _audience c;
     _quota_project_id := _quota_project_id c |}.

Definition set_expiry (v : option datetime) (c : Credentials) : Credentials :=
  {| token := token c;
     expiry := v;
     _k8s_ca_cert_path := _k8s_ca_cert_path c;
     _k8s_cert_path := _k8s_cert_path c;
     _k8s_key_path := _k8s_key_path c;
     _k8s_token_endpoint := _k8s_token_endpoint c;
     _ais_ca_cert_path := _ais_ca_cert_path c;
     _ais_token_endpoint := _ais_token_endpoint c;
     _audience := _audience c;
     _quota_project_id := _quota_project_id c |}.

(** ** Calls of the token-endpoint collaborator *)

(** The arguments of [_client._token_endpoint_request] after the transport,
    in the order of the call sites: the endpoint, the request body, the
    fourth and fifth arguments ([None] and [True] at both call sites), the
    client certificate pair, the CA path, and the expected status (absent
    when the call leaves it to the collaborator's default). *)
Record endpoint_args := {
  token_uri : pystr;
  body : gmap pystr pystr;
  access_token : option pystr;
  use_json : bool;
  cert : option (pystr * pystr);
  verify : pystr;
  expected_status : option Z;
}.

(** The arguments of the call on lines 73-82. *)
Definition k8s_token_endpoint_args (c : Credentials) : endpoint_args :=
  {| token_uri := _k8s_token_endpoint c;
     body := ∅;
     access_token := None;
     use_json := true;
     cert := Some (_k8s_cert_path c, _k8s_key_path c);
     verify := _k8s_ca_cert_path c;
     expected_status := Some CREATED |}.

(** The dict of lines 98-104. *)
Definition ais_request_body (audience k8s_token : pystr) : gmap pystr pystr :=
  list_to_map
    [ (str "grant_type", TOKEN_EXCHANGE_TYPE);
      (str "audience", audience);
      (str "requested_token_type", ACCESS_TOKEN_TOKEN_TYPE);
      (str "subject_token", k8s_token);
      (str "subject_token_type", SERVICE_ACCOUNT_TOKEN_TYPE) ].

(** The arguments of the call on lines 105-113. *)
Definition ais_token_endpoint_args (c : Credentials) (k8s_token : pystr)
    : endpoint_args :=
  {| token_uri := _ais_token_endpoint c;
     body := ais_request_body (_audience c) k8s_token;
     access_token := None;
     use_json := true;
     cert := None;
     verify := _ais_ca_cert_path c;
     expected_status := None |}.

(** ** The program state and its collaborators *)

Module gdch_credentials.
Section methods.

(** The transport callable that [refresh] receives and hands on. *)
Context {Request : Type}.

(** What a run does to the outside: the calls of the token-endpoint
    collaborator and the lines printed to the standard output, in order. *)
Inductive event :=
| Requested (request : Request) (args : endpoint_args)
| Printed (line : pystr).

(** Objects are referred to by address. *)
Definition loc := nat.

Record state := {
  heap : gmap loc Credentials;
  trace : list event;
}.

(** [_client._token_endpoint_request]: the parsed JSON of the response, or
    an exception; the answer may depend on everything that happened
    before. *)
Variable _token_endpoint_request :
  Request → endpoint_args → list event → result json.

(** [_client._handle_refresh_grant_response]: access token, refresh token,
    expiry and extra data of a token response, or an exception. *)
Variable _handle_refresh_grant_response :
  json → option pystr →
  result (pystr * option pystr * option datetime * json).

(** [str(v)] for a value that is not a [str], at a point of the run.
    Python renders the object itself, a dict in the order in which its keys
    were inserted; [JDict] does not keep that order, so the text is given
    with the run so far rather than computed from the value alone. *)
Variable repr : list event → json → pystr.

(** [sys.stdout.write], as [print] calls it for the text of a line: the
    stream encodes the text before it writes any of it, and either raises
    ([UnicodeEncodeError] when its encoding lacks a character of the text,
    or whatever a stream put in its place raises) or takes the line. *)
Variable sys_stdout_write : list event → pystr → result ().

(** [str(v)], which for a [str] is the string itself. *)
Definition py_str (history : list event) (v : json) : pystr :=
  match v with
  | JStr s => s
  | _ => repr history v
  end.

(** The text that the standard output received: [print] ends each line
    with a newline. *)
Fixpoint stdout (t : list event) : pystr :=
  match t with
  | [] => []
  | Printed line :: t' => line ++ [10] ++ stdout t'
  | Requested _ _ :: t' => stdout t'
  end.

(** *** Statements: state and exceptions *)

Definition M (A : Type) : Type := state → result A * state.

#[local] Instance M_ret : MRet M := λ A a σ, (inr a, σ).

#[local] Instance M_bind : MBind M := λ A B k m σ,
  match m σ with
  | (inr a, σ') => k a σ'
  | (inl e, σ') => (inl e, σ')
  end.

Definition raise {A} (e : exn) : M A := λ σ, (inl e, σ).

Definition lift {A} (r : result A) : M A := λ σ, (r, σ).

(** [try: body except KeyError as caught_exc: handler]. *)
Definition try_except_KeyError {A} (body : M A) (handler : exn → M A)
    : M A := λ σ,
  match body σ with
  | (inl (KeyError key), σ') => handler (KeyError key) σ'
  | r => r
  end.

(** Reading the attributes of [self].  A Python reference always points to
    a live object; [ReferenceError] marks the states a run never reaches. *)
Definition load (self : loc) : M Credentials := λ σ,
  match heap σ !! self with
  | Some c => (inr c, σ)
  | None => (inl ReferenceError, σ)
  end.

(** Assigning to an attribute of [self]. *)
Definition store (self : loc) (f : Credentials → Credentials) : M unit :=
  λ σ,
  match heap σ !! self with
  | Some c => (inr (), {| heap := <[self := f c]> (heap σ);
                          trace := trace σ |})
  | None => (inl ReferenceError, σ)
  end.

(** Creating an instance whose initialiser leaves it as [c]. *)
Definition new (c : Credentials) : M loc := λ σ,
  let l := fresh (dom (heap σ)) in
  (inr l, {| heap := <[l := c]> (heap σ); trace := trace σ |}).

Definition emit (ev : event) : M unit := λ σ,
  (inr (), {| heap := heap σ; trace := trace σ ++ [ev] |}).

(** ["...{}".format(v)], for a template that ends with its only field:
    the field is replaced by [str(v)]. *)
Definition format (template : pystr) (v : json) : M pystr := λ σ,
  (inr (template ++ py_str (trace σ) v), σ).

(** [print(line)]: the line reaches the standard output, or the stream
    raises and nothing was written. *)
Definition print (line : pystr) : M unit := λ σ,
  match sys_stdout_write (trace σ) line with
  | inr _ => emit (Printed line) σ
  | inl e => (inl e, σ)
  end.

(** A call of the token-endpoint collaborator. *)
Definition token_endpoint_request (request : Request) (args : endpoint_args)
    : M json := λ σ,
  (_token_endpoint_request request args (trace σ),
   {| heap := heap σ; trace := trace σ ++ [Requested request args] |}).

(** *** The methods of [Credentials] *)

(** Lines 71-92. *)
Definition _make_k8s_token_request (self : loc) (request : Request)
    : M json :=
  c ← load self;
  k8s_response_data ← token_endpoint_request request
                         (k8s_token_endpoint_args c);
  try_except_KeyError
    (k8s_token ← lift (status_token k8s_response_data);
     line ← format (str "received k8s token: ") k8s_token;
     _ ← print line;
     mret k8s_token)
    (λ caught_exc,
       raise (RefreshError (str "No access token in k8s token response.")
                k8s_response_data (Some caught_exc))).

(** Lines 94-118. *)
Definition _make_ais_token_request (self : loc) (k8s_token : json)
    (request : Request) : M (pystr * option datetime) :=
  k8s_token ← lift (subject_token k8s_token);
  c ← load self;
  ais_response_data ← token_endpoint_request request
                         (ais_token_endpoint_args c k8s_token);
  '(ais_token, _, ais_expiry, _) ←
    lift (_handle_refresh_grant_response ais_response_data None);
  _ ← print (str "received ais token: " ++ ais_token);
  mret (ais_token, ais_expiry).

(** Lines 120-123. *)
Definition refresh (self : loc) (request : Request) : M unit :=
  k8s_token ← _make_k8s_token_request self request;
  '(ais_token, ais_expiry) ← _make_ais_token_request self k8s_token request;
  _ ← store self (set_token (Some ais_token));
  store self (set_expiry ais_expiry).

(** Lines 125-140. *)
Definition with_audience (self : loc) (audience : pystr) : M loc :=
  c ← load self;
  new (__init__ (_k8s_ca_cert_path c) (_k8s_cert_path c) (_k8s_key_path c)
         (_k8s_token_endpoint c) (_ais_ca_cert_path c)
         (_ais_token_endpoint c) audience (_quota_project_id c)).

(** Lines 142-153. *)
Definition with_quota_project (self : loc)
    (quota_project_id : option pystr) : M loc :=
  c ← load self;
  new (__init__ (_k8s_ca_cert_path c) (_k8s_cert_path c) (_k8s_key_path c)
         (_k8s_token_endpoint c) (_ais_ca_cert_path c)
         (_ais_token_endpoint c) (_audience c) quota_project_id).

(** The line that line 86 prints in a run that started with the trace
    [history]: the token is rendered after the bootstrap request. *)
Definition k8s_line (history : list event) (request : Request)
    (c : Credentials) (k8s_token : json) : pystr :=
  str "received k8s token: "
  ++ py_str (history ++ [Requested request (k8s_token_endpoint_args c)])
       k8s_token.

(** What a successful step 1 adds to the trace [history]: the bootstrap
    request and the line printed on line 86. *)
Definition k8s_events (history : list event) (request : Request)
    (c : Credentials) (k8s_token : json) : list event :=
  [Requested request (k8s_token_endpoint_args c);
   Printed (k8s_line history request c k8s_token)].

(** What a successful step 2 adds: the exchange request and the line printed
    on line 117. *)
Definition ais_events (request : Request) (c : Credentials)
    (k8s_token ais_token : pystr) : list event :=
  [Requested request (ais_token_endpoint_args c k8s_token);
   Printed (str "received ais token: " ++ ais_token)].

End methods.
End gdch_credentials.

Import gdch_credentials.


(** ** A concrete run *)

(** The end-to-end scenario: a credential at address 0, a bootstrap endpoint
    that answers with a given JSON body, and an exchange endpoint that, given
    the subject token [base64("boot-abc")], answers with the access token
    "final-xyz" and a lifetime of 3600 seconds. *)
Definition ex_credentials : Credentials :=
  __init__ (str "/etc/k8s/ca.crt") (str "/etc/k8s/client.crt")
    (str "/etc/k8s/client.key") (str "https://k8s.local/token")
    (str "/etc/ais/ca.crt") (str "https://ais.local/token")
    (str "https://service.local") None.

Definition ex_state : @state unit :=
  {| heap := {[ 0%nat := ex_credentials ]}; trace := [] |}.

(** A credential that was refreshed before. *)
Definition ex_refreshed : Credentials :=
  set_expiry (Some 1700000000) (set_token (Some (str "old")) ex_credentials).

Definition ex_state_refreshed : @state unit :=
  {| heap := {[ 0%nat := ex_refreshed ]}; trace := [] |}.

Definition ex_k8s_response : json :=
  JDict {[ str "status" := JDict {[ str "token" := JStr (str "boot-abc") ]} ]}.

Definition ex_k8s_response_no_token : json :=
  JDict {[ str "status" := JDict ∅ ]}.

Definition ex_ais_response : json :=
  JDict (<[ str "access_token" := JStr (str "final-xyz") ]>
         (<[ str "expires_in" := JInt 3600 ]>
          {[ str "token_type" := JStr (str "Bearer") ]})).

Definition ex_invalid_grant : exn :=
  RefreshError (str "invalid_grant") JNull None.

Definition ex_token_endpoint_request (k8s_response : json) (request : unit)
    (args : endpoint_args) (history : list (@event unit)) : result json :=
  if bool_decide (token_uri args = str "https://k8s.local/token")
  then inr k8s_response
  else if bool_decide (body args !! str "subject_token"
                       = Some (str "Ym9vdC1hYmM="))
  then inr ex_ais_response
  else inl ex_invalid_grant.

(** A refresh-grant-response collaborator, with the clock at [now]. *)
Definition ex_handle_refresh_grant_response (now : datetime)
    (response_data : json) (refresh_token : option pystr)
    : result (pystr * option pystr * option datetime * json) :=
  match getitem response_data (str "access_token") with
  | inr (JStr tok) =>
      inr (tok, refresh_token,
           match getitem response_data (str "expires_in") with
           | inr (JInt n) => Some (now + n)
           | _ => None
           end,
           response_data)
  | _ => inl (RefreshError (str "No access token in response.")
                response_data None)
  end.

(** [str(v)] for the values without a dict in them that the runs below
    print: [None], the booleans and the integers. *)
Definition ex_repr (history : list (@event unit)) (v : json) : pystr :=
  match v with
  | JNull => str "None"
  | JBool true => str "True"
  | JBool false => str "False"
  | JInt n => str (pretty n)
  | _ => str "<object>"
  end.

(** A standard output with the UTF-8 encoding and strict error handling,
    the default of Python 3: it takes the text that UTF-8 encodes. *)
Definition ex_sys_stdout_write (history : list (@event unit)) (line : pystr)
    : result () :=
  match utf8_encode line with
  | Some _ => inr ()
  | None => inl UnicodeEncodeError
  end.

(** The refresh of the credential at address 0 against these collaborators,
    with the clock at 1700000000. *)
Definition ex_refresh (k8s_response : json) : M unit :=
  refresh (ex_token_endpoint_request k8s_response)
    (ex_handle_refresh_grant_response 1700000000) ex_repr
    ex_sys_stdout_write 0%nat ().

Definition ex_make_k8s_token_request (k8s_response : json) : M json :=
  _make_k8s_token_request (ex_token_endpoint_request k8s_response) ex_repr
    ex_sys_stdout_write 0%nat ().



(** A refreshed credential with a quota project. *)
Definition ex_billed : Credentials :=
  set_expiry (Some 1700000000)
    (set_token (Some (str "old"))
       (__init__ (str "/etc/k8s/ca.crt") (str "/etc/k8s/client.crt")
          (str "/etc/k8s/client.key") (str "https://k8s.local/token")
          (str "/etc/ais/ca.crt") (str "https://ais.local/token")
          (str "https://service.local") (Some (str "billing-0")))).

Definition ex_state_billed : @state unit :=
  {| heap := {[ 0%nat := ex_billed ]}; trace := [] |}.

(** A collaborator that raises [e] whatever it is asked. *)
Definition ex_raising_token_endpoint_request (e : exn) (request : unit)
    (args : endpoint_args) (history : list (@event unit)) : result json :=
  inl e.

(** ** Predicates on text *)

(** The code points that UTF-8 encodes: all but the surrogates. *)
Definition encodable (c : Z) : Prop :=
  0 <= c < 0xD800 ∨ 0xDFFF < c <= 0x10FFFF.

(** The characters of a base64 text: the alphabet and the padding. *)
Definition is_b64 (c : Z) : Prop :=
  is_Some (b64_index c) ∨ c = b64_pad.

(** ** Codec lemmas *)

(** Case analysis on the integer comparisons of a goal, leaving the facts in
    the form [lia] reads. *)
Ltac zcases :=
  repeat match goal with
    | |- context [?a <? ?b] => destruct (Z.ltb_spec a b)
    | |- context [?a <=? ?b] => destruct (Z.leb_spec a b)
    | |- context [?a =? ?b] => destruct (Z.eqb_spec a b)
    end; simpl.

(** Linear arithmetic with quotients and remainders by constants. *)
Ltac zlia := Z.to_euclidean_division_equations; lia.

Lemma utf8_encode_char_bytes c bs :
  utf8_encode_char c = Some bs → Forall is_byte bs.
Proof.
  unfold utf8_encode_char.
  zcases; intros [= <-];
    repeat first [apply Forall_cons_2 | apply Forall_nil_2];
    unfold is_byte; zlia.
Qed.

Lemma utf8_encode_bytes s bs : utf8_encode s = Some bs → Forall is_byte bs.
Proof.
  revert bs. induction s as [|c s IH]; simpl; intros bs.
  - intros [= <-]. constructor.
  - destruct (utf8_encode_char c) as [b|] eqn:Hc; [|done].
    destruct (utf8_encode s) as [b'|]; [|done].
    intros [= <-]. apply Forall_app. eauto using utf8_encode_char_bytes.
Qed.

Lemma utf8_decode_1 b0 r :
  b0 < 0x80 →
  utf8_decode (b0 :: r)
  = if utf8_accept b0 [b0] then cons b0 <$> utf8_decode r else None.
Proof. intros H. simpl. by rewrite (proj2 (Z.ltb_lt b0 128) H). Qed.

Lemma utf8_decode_2 b0 b1 r :
  0x80 <= b0 < 0xE0 →
  utf8_decode (b0 :: b1 :: r)
  = if utf8_accept ((b0 - 0xC0) * 64 + (b1 - 0x80)) [b0; b1]
    then cons ((b0 - 0xC0) * 64 + (b1 - 0x80)) <$> utf8_decode r else None.
Proof.
  intros H. cbn [utf8_decode].
  rewrite (proj2 (Z.ltb_ge b0 128)) by lia.
  by rewrite (proj2 (Z.ltb_lt b0 224)) by lia.
Qed.

Lemma utf8_decode_3 b0 b1 b2 r :
  0xE0 <= b0 < 0xF0 →
  utf8_decode (b0 :: b1 :: b2 :: r)
  = if utf8_accept ((b0 - 0xE0) * 4096 + (b1 - 0x80) * 64 + (b2 - 0x80))
         [b0; b1; b2]
    then cons ((b0 - 0xE0) * 4096 + (b1 - 0x80) * 64 + (b2 - 0x80))
           <$> utf8_decode r
    else None.
Proof.
  intros H. cbn [utf8_decode].
  rewrite (proj2 (Z.ltb_ge b0 128)) by lia.
  rewrite (proj2 (Z.ltb_ge b0 224)) by lia.
  by rewrite (proj2 (Z.ltb_lt b0 240)) by lia.
Qed.

Lemma utf8_decode_4 b0 b1 b2 b3 r :
  0xF0 <= b0 →
  utf8_decode (b0 :: b1 :: b2 :: b3 :: r)
  = if utf8_accept ((b0 - 0xF0) * 262144 + (b1 - 0x80) * 4096
                    + (b2 - 0x80) * 64 + (b3 - 0x80)) [b0; b1; b2; b3]
    then cons ((b0 - 0xF0) * 262144 + (b1 - 0x80) * 4096
               + (b2 - 0x80) * 64 + (b3 - 0x80)) <$> utf8_decode r
    else None.
Proof.
  intros H. cbn [utf8_decode].
  rewrite (proj2 (Z.ltb_ge b0 128)) by lia.
  rewrite (proj2 (Z.ltb_ge b0 224)) by lia.
  by rewrite (proj2 (Z.ltb_ge b0 240)) by lia.
Qed.

Lemma utf8_accept_encoding c bs :
  utf8_encode_char c = Some bs → utf8_accept c bs = true.
Proof. intros H. by apply bool_decide_eq_true_2. Qed.

(** Decoding undoes the encoding of one code point, whatever follows. *)
Lemma utf8_decode_encode_char c bs r :
  utf8_encode_char c = Some bs →
  utf8_decode (bs ++ r) = cons c <$> utf8_decode r.
Proof.
  intros Hc. generalize (utf8_accept_encoding c bs Hc). revert Hc.
  unfold utf8_encode_char.
  zcases; intros [= <-] Hacc; cbn [app].
  - rewrite utf8_decode_1 by lia. by rewrite Hacc.
  - rewrite utf8_decode_2 by zlia.
    replace ((192 + c / 64 - 192) * 64 + (128 + c mod 64 - 128))
      with c by zlia.
    by rewrite Hacc.
  - rewrite utf8_decode_3 by zlia.
    replace ((224 + c / 4096 - 224) * 4096
             + (128 + (c / 64) mod 64 - 128) * 64
             + (128 + c mod 64 - 128)) with c by zlia.
    by rewrite Hacc.
  - rewrite utf8_decode_3 by zlia.
    replace ((224 + c / 4096 - 224) * 4096
             + (128 + (c / 64) mod 64 - 128) * 64
             + (128 + c mod 64 - 128)) with c by zlia.
    by rewrite Hacc.
  - rewrite utf8_decode_3 by zlia.
    replace ((224 + c / 4096 - 224) * 4096
             + (128 + (c / 64) mod 64 - 128) * 64
             + (128 + c mod 64 - 128)) with c by zlia.
    by rewrite Hacc.
  - rewrite utf8_decode_4 by zlia.
    replace ((240 + c / 262144 - 240) * 262144
             + (128 + (c / 4096) mod 64 - 128) * 4096
             + (128 + (c / 64) mod 64 - 128) * 64
             + (128 + c mod 64 - 128)) with c by zlia.
    by rewrite Hacc.
Qed.

Lemma utf8_decode_encode s bs :
  utf8_encode s = Some bs → utf8_decode bs = Some s.
Proof.
  revert bs. induction s as [|c s IH]; simpl; intros bs.
  - by intros [= <-].
  - destruct (utf8_encode_char c) as [b|] eqn:Hc; [|done].
    destruct (utf8_encode s) as [b'|]; [|done].
    intros [= <-]. rewrite (utf8_decode_encode_char c b b' Hc).
    by rewrite (IH b' eq_refl).
Qed.

(** Text made of ASCII characters is its own UTF-8 encoding. *)
Lemma utf8_encode_ascii s : Forall is_ascii s → utf8_encode s = Some s.
Proof.
  induction 1 as [|c s Hc _ IH]; [done|].
  simpl. rewrite IH. unfold utf8_encode_char, is_ascii in *.
  rewrite (proj2 (Z.ltb_ge c 0)) by lia.
  by rewrite (proj2 (Z.ltb_lt c 128)) by lia.
Qed.

Lemma utf8_decode_ascii bs : Forall is_ascii bs → utf8_decode bs = Some bs.
Proof. intros H. by apply utf8_decode_encode, utf8_encode_ascii. Qed.

Lemma b64_char_ascii i : 0 <= i < 64 → is_ascii (b64_char i).
Proof. unfold b64_char, is_ascii. zcases; lia. Qed.

Lemma b64_char_not_pad i : 0 <= i < 64 → b64_char i ≠ b64_pad.
Proof. unfold b64_char, b64_pad. zcases; lia. Qed.

Lemma b64_index_char i : 0 <= i < 64 → b64_index (b64_char i) = Some i.
Proof.
  intros Hi. unfold b64_index, b64_char.
  zcases; first [lia | f_equal; lia].
Qed.

(** Induction on a list three elements at a time, as [b64encode] recurses. *)
Lemma list_ind3 {A} (P : list A → Prop) :
  P [] → (∀ a, P [a]) → (∀ a b, P [a; b]) →
  (∀ a b c l, P l → P (a :: b :: c :: l)) →
  ∀ l, P l.
Proof.
  intros H0 H1 H2 H3.
  assert (∀ l, P l ∧ (∀ a, P (a :: l)) ∧ (∀ a b, P (a :: b :: l))) as H.
  { induction l as [|x l (IHa & IHb & IHc)]; [by auto|].
    split_and!; [apply IHb| intros; apply IHc | intros; by apply H3]. }
  intros l. apply H.
Qed.

Lemma b64encode_ascii bs : Forall is_byte bs → Forall is_ascii (b64encode bs).
Proof.
  induction bs as [|b0|b0 b1|b0 b1 b2 r IH] using list_ind3;
    intros Hbs; cbn [b64encode].
  - constructor.
  - apply Forall_cons_1 in Hbs as [H0 _]. unfold is_byte in *.
    repeat first [apply Forall_cons_2 | apply Forall_nil_2];
      first [apply b64_char_ascii; zlia | by unfold is_ascii, b64_pad].
  - apply Forall_cons_1 in Hbs as [H0 Hbs].
    apply Forall_cons_1 in Hbs as [H1 _]. unfold is_byte in *.
    repeat first [apply Forall_cons_2 | apply Forall_nil_2];
      first [apply b64_char_ascii; zlia | by unfold is_ascii, b64_pad].
  - apply Forall_cons_1 in Hbs as [H0 Hbs].
    apply Forall_cons_1 in Hbs as [H1 Hbs].
    apply Forall_cons_1 in Hbs as [H2 Hbs]. unfold is_byte in *.
    repeat apply Forall_cons_2; [apply b64_char_ascii; zlia..|by apply IH].
Qed.

(** Base64 round trip: decoding the encoding of octets gives them back. *)
Lemma b64decode_b64encode bs :
  Forall is_byte bs → b64decode (b64encode bs) = Some bs.
Proof.
  induction bs as [|b0|b0 b1|b0 b1 b2 r IH] using list_ind3;
    intros Hbs; cbn [b64encode b64decode].
  - done.
  - apply Forall_cons_1 in Hbs as [H0 _]. unfold is_byte in *.
    rewrite ?b64_index_char by zlia. cbn [mbind option_bind].
    rewrite bool_decide_eq_true_2 by done.
    rewrite bool_decide_eq_true_2 by done.
    do 2 f_equal. zlia.
  - apply Forall_cons_1 in Hbs as [H0 Hbs].
    apply Forall_cons_1 in Hbs as [H1 _]. unfold is_byte in *.
    rewrite ?b64_index_char by zlia. cbn [mbind option_bind].
    rewrite bool_decide_eq_true_2 by done.
    rewrite bool_decide_eq_false_2 by (apply b64_char_not_pad; zlia).
    rewrite ?b64_index_char by zlia. cbn [mbind option_bind].
    f_equal. f_equal; [zlia|]. f_equal. zlia.
  - apply Forall_cons_1 in Hbs as [H0 Hbs].
    apply Forall_cons_1 in Hbs as [H1 Hbs].
    apply Forall_cons_1 in Hbs as [H2 Hbs]. unfold is_byte in *.
    rewrite ?b64_index_char by zlia. cbn [mbind option_bind].
    rewrite bool_decide_eq_false_2
      by (intros [Hp _]; revert Hp; apply b64_char_not_pad; zlia).
    rewrite ?b64_index_char by zlia. cbn [mbind option_bind].
    rewrite (IH Hbs). cbn [mbind option_bind].
    f_equal. f_equal; [zlia|]. f_equal; [zlia|]. f_equal. zlia.
Qed.

(** ** The methods, step by step *)

Section properties.

Context {Request : Type}.
Variable _token_endpoint_request :
  Request → endpoint_args → list (@event Request) → result json.
Variable _handle_refresh_grant_response :
  json → option pystr →
  result (pystr * option pystr * option datetime * json).
Variable repr : list (@event Request) → json → pystr.
Variable sys_stdout_write : list (@event Request) → pystr → result ().

#[local] Abbreviation _make_k8s_token_request :=
  (_make_k8s_token_request _token_endpoint_request repr sys_stdout_write).
#[local] Abbreviation _make_ais_token_request :=
  (_make_ais_token_request _token_endpoint_request
     _handle_refresh_grant_response sys_stdout_write).
#[local] Abbreviation refresh :=
  (refresh _token_endpoint_request _handle_refresh_grant_response repr
     sys_stdout_write).
#[local] Abbreviation py_str := (py_str repr).
#[local] Abbreviation k8s_line := (k8s_line repr).
#[local] Abbreviation k8s_events := (k8s_events repr).

Implicit Types (σ : @state Request) (self : loc) (request : Request)
  (c : Credentials) (e : exn).

(** Unfolding the statements of a method body. *)
Ltac run :=
  unfold mbind, M_bind, mret, M_ret, lift, raise, load, store, new, print,
    format, emit, token_endpoint_request, try_except_KeyError;
  cbn beta iota.

(** X13. The lookup of line 85 raises [KeyError] in exactly two cases: the
    response is a dict without "status", and the key is "status"; or its
    [status] is a dict without "token", and the key is "token". *)
Lemma status_token_KeyError data key :
  status_token data = inl (KeyError key) ↔
  (∃ d, data = JDict d ∧ d !! str "status" = None ∧ key = str "status") ∨
  (∃ d d', data = JDict d ∧ d !! str "status" = Some (JDict d')
           ∧ d' !! str "token" = None ∧ key = str "token").
Proof.
  unfold status_token, getitem. split.
  - destruct data as [| | | | | |d]; try done.
    destruct (d !! str "status") as [st|] eqn:Hst.
    + destruct st as [| | | | | |d']; try done.
      destruct (d' !! str "token") eqn:Htk; [done|].
      intros [= <-]. right. by exists d, d'.
    + intros [= <-]. left. by exists d.
  - intros [(d & -> & Hst & ->)|(d & d' & -> & Hst & Htk & ->)].
    + by rewrite Hst.
    + by rewrite Hst, Htk.
Qed.

(** The outcome of step 1, by cases on what the collaborator answers. *)
Lemma _make_k8s_token_request_run σ self request c :
  heap σ !! self = Some c →
  _make_k8s_token_request self request σ =
  let σ1 := {| heap := heap σ;
               trace := trace σ ++ [Requested request
                                      (k8s_token_endpoint_args c)] |} in
  match _token_endpoint_request request (k8s_token_endpoint_args c)
          (trace σ) with
  | inl e => (inl e, σ1)
  | inr k8s_response_data =>
      match status_token k8s_response_data with
      | inr k8s_token =>
          match sys_stdout_write (trace σ1)
                  (k8s_line (trace σ) request c k8s_token) with
          | inr _ =>
              (inr k8s_token,
               {| heap := heap σ;
                  trace := trace σ
                           ++ k8s_events (trace σ) request c k8s_token |})
          | inl (KeyError key) =>
              (inl (RefreshError
                      (str "No access token in k8s token response.")
                      k8s_response_data (Some (KeyError key))), σ1)
          | inl e => (inl e, σ1)
          end
      | inl (KeyError key) =>
          (inl (RefreshError (str "No access token in k8s token response.")
                  k8s_response_data (Some (KeyError key))), σ1)
      | inl e => (inl e, σ1)
      end
  end.
Proof.
  intros Hc. unfold gdch_credentials._make_k8s_token_request. run. rewrite Hc.
  destruct (_token_endpoint_request _ _ _) as [e|data]; [done|].
  destruct (status_token data) as [[]|tok]; cbn; try done.
  unfold gdch_credentials.k8s_line.
  destruct (sys_stdout_write _ _) as [[]|[]]; cbn; try done.
  unfold gdch_credentials.k8s_events, gdch_credentials.k8s_line.
  by rewrite <- app_assoc.
Qed.

(** The outcome of step 2, by cases on the token it receives and on what
    the collaborators answer. *)
Lemma _make_ais_token_request_run σ self request c k8s_token :
  heap σ !! self = Some c →
  _make_ais_token_request self k8s_token request σ =
  match subject_token k8s_token with
  | inl e => (inl e, σ)
  | inr subject =>
      let args := ais_token_endpoint_args c subject in
      let σ1 := {| heap := heap σ;
                   trace := trace σ ++ [Requested request args] |} in
      match _token_endpoint_request request args (trace σ) with
      | inl e => (inl e, σ1)
      | inr ais_response_data =>
          match _handle_refresh_grant_response ais_response_data None with
          | inl e => (inl e, σ1)
          | inr (ais_token, _, ais_expiry, _) =>
              match sys_stdout_write (trace σ1)
                      (str "received ais token: " ++ ais_token) with
              | inr _ =>
                  (inr (ais_token, ais_expiry),
                   {| heap := heap σ;
                      trace := trace σ
                               ++ ais_events request c subject ais_token |})
              | inl e => (inl e, σ1)
              end
          end
      end
  end.
Proof.
  intros Hc. unfold gdch_credentials._make_ais_token_request. run.
  destruct (subject_token k8s_token) as [e|subject]; [done|].
  rewrite Hc.
  destruct (_token_endpoint_request _ _ _) as [e|data]; [done|].
  destruct (_handle_refresh_grant_response data None)
    as [e|[[[tok rt] exp] extra]]; cbn; [done|].
  destruct (sys_stdout_write _ _) as [e|[]]; cbn; [done|].
  unfold ais_events. by rewrite <- app_assoc.
Qed.

(** Neither step touches the object store. *)
Lemma _make_k8s_token_request_heap σ self request c res σ' :
  heap σ !! self = Some c →
  _make_k8s_token_request self request σ = (res, σ') → heap σ' = heap σ.
Proof.
  intros Hc. rewrite (_make_k8s_token_request_run _ _ _ c Hc). cbn zeta.
  repeat case_match; by intros [= <- <-].
Qed.

Lemma _make_ais_token_request_heap σ self request c k8s_token res σ' :
  heap σ !! self = Some c →
  _make_ais_token_request self k8s_token request σ = (res, σ') →
  heap σ' = heap σ.
Proof.
  intros Hc. rewrite (_make_ais_token_request_run _ _ _ c _ Hc). cbn zeta.
  repeat case_match; by intros [= <- <-].
Qed.

(** [refresh] is step 1, then step 2, then the two assignments. *)
Lemma refresh_step1_raises σ self request e σ1 :
  _make_k8s_token_request self request σ = (inl e, σ1) →
  refresh self request σ = (inl e, σ1).
Proof. intros H. unfold gdch_credentials.refresh. run. by rewrite H. Qed.

Lemma refresh_step2_raises σ self request k8s_token σ1 e σ2 :
  _make_k8s_token_request self request σ = (inr k8s_token, σ1) →
  _make_ais_token_request self k8s_token request σ1 = (inl e, σ2) →
  refresh self request σ = (inl e, σ2).
Proof.
  intros H1 H2. unfold gdch_credentials.refresh. run. by rewrite H1, H2.
Qed.

Lemma refresh_steps_return σ self request c k8s_token σ1 ais_token ais_expiry
    σ2 :
  heap σ !! self = Some c →
  _make_k8s_token_request self request σ = (inr k8s_token, σ1) →
  _make_ais_token_request self k8s_token request σ1
  = (inr (ais_token, ais_expiry), σ2) →
  refresh self request σ =
  (inr (), {| heap := <[self := set_expiry ais_expiry
                                  (set_token (Some ais_token) c)]> (heap σ);
              trace := trace σ2 |}).
Proof.
  intros Hc H1 H2.
  assert (heap σ1 = heap σ) as Hh1
    by eauto using _make_k8s_token_request_heap.
  assert (heap σ2 = heap σ) as Hh2.
  { rewrite <- Hh1. eapply _make_ais_token_request_heap; [|done].
    by rewrite Hh1. }
  unfold gdch_credentials.refresh. run. rewrite H1, H2. cbn.
  rewrite Hh2, Hc. cbn. rewrite lookup_insert_eq. cbn.
  by rewrite insert_insert_eq.
Qed.

(** What line 95 computes: it succeeds exactly on a [str] that UTF-8 can
    encode, and gives the base64 text of its UTF-8 octets. *)
Lemma subject_token_inr k8s_token subject :
  subject_token k8s_token = inr subject ↔
  ∃ tkn bs, k8s_token = JStr tkn ∧ utf8_encode tkn = Some bs
            ∧ subject = b64encode bs.
Proof.
  unfold subject_token, encode, decode. split.
  - destruct k8s_token as [| | | |tkn| |]; try done.
    destruct (utf8_encode tkn) as [bs|] eqn:Hbs; [|done].
    rewrite utf8_decode_ascii
      by eauto using b64encode_ascii, utf8_encode_bytes.
    intros [= <-]. by exists tkn, bs.
  - intros (tkn & bs & -> & Hbs & ->). rewrite Hbs.
    by rewrite utf8_decode_ascii
      by eauto using b64encode_ascii, utf8_encode_bytes.
Qed.

(** The keys of the exchange request body are pairwise distinct. *)
Lemma ais_request_body_lookup audience k8s_token key value :
  (key, value) ∈
    [ (str "grant_type", TOKEN_EXCHANGE_TYPE);
      (str "audience", audience);
      (str "requested_token_type", ACCESS_TOKEN_TOKEN_TYPE);
      (str "subject_token", k8s_token);
      (str "subject_token_type", SERVICE_ACCOUNT_TOKEN_TYPE) ] →
  ais_request_body audience k8s_token !! key = Some value.
Proof.
  intros Hin. unfold ais_request_body.
  apply elem_of_list_to_map_1; [|done].
  cbn [fmap list_fmap fst]. apply (bool_decide_unpack _). by vm_compute.
Qed.

Lemma ais_request_body_dom audience k8s_token :
  dom (ais_request_body audience k8s_token)
  = {[ str "grant_type"; str "audience"; str "requested_token_type";
       str "subject_token"; str "subject_token_type" ]}.
Proof.
  unfold ais_request_body. rewrite dom_list_to_map_L.
  cbn [fmap list_fmap fst list_to_set foldr]. set_solver.
Qed.

Lemma stdout_app (t1 t2 : list (@event Request)) :
  stdout (t1 ++ t2) = stdout t1 ++ stdout t2.
Proof.
  induction t1 as [|[r a|line] t1 IH]; cbn; [done..|].
  by rewrite IH, <- !app_assoc.
Qed.

(** The trace only grows, and step 1 starts with the bootstrap request. *)
Lemma _make_k8s_token_request_trace σ self request c res σ' :
  heap σ !! self = Some c →
  _make_k8s_token_request self request σ = (res, σ') →
  ∃ rest, trace σ' = trace σ ++ Requested request (k8s_token_endpoint_args c)
                     :: rest
          ∧ ∀ r a, Requested r a ∉ rest.
Proof.
  intros Hc. rewrite (_make_k8s_token_request_run _ _ _ c Hc). cbn zeta.
  repeat case_match; intros [= <- <-]; cbn;
    try (exists []; split; [done|]; intros r a Hin; by inv Hin).
  eexists [_]. split; [done|]. intros r a Hin.
  apply list_elem_of_singleton in Hin. done.
Qed.

Lemma _make_ais_token_request_trace σ self request c k8s_token res σ' :
  heap σ !! self = Some c →
  _make_ais_token_request self k8s_token request σ = (res, σ') →
  ∃ rest, trace σ' = trace σ ++ rest.
Proof.
  intros Hc. rewrite (_make_ais_token_request_run _ _ _ c _ Hc). cbn zeta.
  repeat case_match; intros [= <- <-]; cbn; eauto.
  exists []. by rewrite app_nil_r.
Qed.

(** The outcome of the two derivations. *)
Lemma with_audience_run σ self c audience :
  heap σ !! self = Some c →
  with_audience self audience σ =
  (inr (fresh (dom (heap σ))),
   {| heap := <[fresh (dom (heap σ)) :=
                  __init__ (_k8s_ca_cert_path c) (_k8s_cert_path c)
                    (_k8s_key_path c) (_k8s_token_endpoint c)
                    (_ais_ca_cert_path c) (_ais_token_endpoint c) audience
                    (_quota_project_id c)]> (heap σ);
      trace := trace σ |}).
Proof. intros Hc. unfold with_audience. run. by rewrite Hc. Qed.

Lemma with_quota_project_run σ self c quota_project_id :
  heap σ !! self = Some c →
  with_quota_project self quota_project_id σ =
  (inr (fresh (dom (heap σ))),
   {| heap := <[fresh (dom (heap σ)) :=
                  __init__ (_k8s_ca_cert_path c) (_k8s_cert_path c)
                    (_k8s_key_path c) (_k8s_token_endpoint c)
                    (_ais_ca_cert_path c) (_ais_token_endpoint c)
                    (_audience c) quota_project_id]> (heap σ);
      trace := trace σ |}).
Proof. intros Hc. unfold with_quota_project. run. by rewrite Hc. Qed.

Lemma fresh_loc_unused (h : gmap loc Credentials) : h !! fresh (dom h) = None.
Proof. apply not_elem_of_dom, is_fresh. Qed.

(** Once step 1 has returned a token that line 95 encodes, the next event
    of [refresh] is the exchange request for it, and no other request
    follows. *)
Lemma refresh_exchange_sent σ self request c k8s_token σ1 subject :
  heap σ !! self = Some c →
  _make_k8s_token_request self request σ = (inr k8s_token, σ1) →
  subject_token k8s_token = inr subject →
  ∃ res σ' rest,
    refresh self request σ = (res, σ') ∧
    trace σ' = trace σ1 ++ Requested request
                   (ais_token_endpoint_args c subject) :: rest ∧
    (∀ r a, Requested r a ∉ rest).
Proof.
  intros Hc H1 Hsub.
  assert (heap σ1 = heap σ) as Hh1
    by eauto using _make_k8s_token_request_heap.
  assert (heap σ1 !! self = Some c) as Hc1 by by rewrite Hh1.
  pose proof (_make_ais_token_request_run σ1 self request c k8s_token Hc1)
    as H2.
  rewrite Hsub in H2. cbn zeta in H2. cbn [trace] in H2.
  destruct (_token_endpoint_request request _ (trace σ1)) as [e|data].
  { eexists _, _, []. split; [by eapply refresh_step2_raises|].
    split; [done|]. intros r a Hin. by inv Hin. }
  destruct (_handle_refresh_grant_response data None)
    as [e|[[[tok rt] exp] extra]].
  { eexists _, _, []. split; [by eapply refresh_step2_raises|].
    split; [done|]. intros r a Hin. by inv Hin. }
  destruct (sys_stdout_write _ _) as [e|[]].
  { eexists _, _, []. split; [by eapply refresh_step2_raises|].
    split; [done|]. intros r a Hin. by inv Hin. }
  eexists _, _, [_]. split; [by eapply refresh_steps_return|].
  split; [done|]. intros r a Hin.
  apply list_elem_of_singleton in Hin. done.
Qed.

(** When line 95 raises, so does [refresh], right after step 1. *)
Lemma refresh_encode_raises σ self request c k8s_token σ1 e :
  heap σ !! self = Some c →
  _make_k8s_token_request self request σ = (inr k8s_token, σ1) →
  subject_token k8s_token = inl e →
  refresh self request σ = (inl e, σ1).
Proof.
  intros Hc H1 Hsub.
  assert (heap σ1 = heap σ) as Hh1
    by eauto using _make_k8s_token_request_heap.
  assert (heap σ1 !! self = Some c) as Hc1 by by rewrite Hh1.
  pose proof (_make_ais_token_request_run σ1 self request c k8s_token Hc1)
    as H2.
  rewrite Hsub in H2. by eapply refresh_step2_raises.
Qed.

(** The outcome of [refresh], by cases on what the collaborators and the
    standard output answer. *)
Lemma refresh_run σ self request c :
  heap σ !! self = Some c →
  refresh self request σ =
  let k8s := k8s_token_endpoint_args c in
  let σ1 := {| heap := heap σ;
               trace := trace σ ++ [Requested request k8s] |} in
  match _token_endpoint_request request k8s (trace σ) with
  | inl e => (inl e, σ1)
  | inr k8s_response_data =>
      match status_token k8s_response_data with
      | inl (KeyError key) =>
          (inl (RefreshError (str "No access token in k8s token response.")
                  k8s_response_data (Some (KeyError key))), σ1)
      | inl e => (inl e, σ1)
      | inr k8s_token =>
          match sys_stdout_write (trace σ1)
                  (k8s_line (trace σ) request c k8s_token) with
          | inl (KeyError key) =>
              (inl (RefreshError
                      (str "No access token in k8s token response.")
                      k8s_response_data (Some (KeyError key))), σ1)
          | inl e => (inl e, σ1)
          | inr _ =>
              let t2 := trace σ ++ k8s_events (trace σ) request c k8s_token in
              match subject_token k8s_token with
              | inl e => (inl e, {| heap := heap σ; trace := t2 |})
              | inr subject =>
                  let ais := ais_token_endpoint_args c subject in
                  let σ3 := {| heap := heap σ;
                               trace := t2 ++ [Requested request ais] |} in
                  match _token_endpoint_request request ais t2 with
                  | inl e => (inl e, σ3)
                  | inr ais_response_data =>
                      match _handle_refresh_grant_response ais_response_data
                              None with
                      | inl e => (inl e, σ3)
                      | inr (ais_token, _, ais_expiry, _) =>
                          match sys_stdout_write (trace σ3)
                                  (str "received ais token: " ++ ais_token)
                          with
                          | inl e => (inl e, σ3)
                          | inr _ =>
                              (inr (),
                               {| heap := <[self := set_expiry ais_expiry
                                             (set_token (Some ais_token) c)]>
                                            (heap σ);
                                  trace := t2 ++ ais_events request c subject
                                                   ais_token |})
                          end
                      end
                  end
              end
          end
      end
  end.
Proof.
  intros Hc. cbn zeta.
  pose proof (_make_k8s_token_request_run σ self request c Hc) as H1.
  cbn zeta in H1.
  destruct (_token_endpoint_request request (k8s_token_endpoint_args c)
              (trace σ)) as [e|data]; [by apply refresh_step1_raises|].
  destruct (status_token data) as [e|tok].
  { destruct e; by apply refresh_step1_raises. }
  destruct (sys_stdout_write _ (k8s_line _ _ _ _)) as [e|[]].
  { destruct e; by apply refresh_step1_raises. }
  set (σ2 := {| heap := heap σ;
                trace := trace σ ++ k8s_events (trace σ) request c tok |})
    in *.
  pose proof (_make_ais_token_request_run σ2 self request c tok Hc) as H2.
  cbn zeta in H2. cbn [heap trace σ2] in H2.
  destruct (subject_token tok) as [e|subject];
    [by eapply refresh_step2_raises|].
  destruct (_token_endpoint_request request
              (ais_token_endpoint_args c subject) _) as [e|adata];
    [by eapply refresh_step2_raises|].
  destruct (_handle_refresh_grant_response adata None)
    as [e|[[[atok rt] aexp] extra]]; [by eapply refresh_step2_raises|].
  destruct (sys_stdout_write _ (str "received ais token: " ++ _)) as [e|[]];
    [by eapply refresh_step2_raises|].
  by rewrite (refresh_steps_return _ _ _ _ _ _ _ _ _ Hc H1 H2).
Qed.

(** ** The refresh *)


(** C2, as the code has it.  When the lookup of [status.token] in the
    bootstrap response raises [KeyError], [refresh] raises [RefreshError]
    with the message "No access token in k8s token response.", the raw
    response as payload and the [KeyError] as cause; only the bootstrap
    request was made, nothing was printed, and the object store, hence the
    credential's token and expiry, is as before. *)
Theorem refresh_no_k8s_token σ self request c k8s_response_data key :
  heap σ !! self = Some c →
  _token_endpoint_request request (k8s_token_endpoint_args c) (trace σ)
  = inr k8s_response_data →
  status_token k8s_response_data = inl (KeyError key) →
  ∃ σ',
    refresh self request σ
    = (inl (RefreshError (str "No access token in k8s token response.")
              k8s_response_data (Some (KeyError key))), σ') ∧
    heap σ' = heap σ ∧
    heap σ' !! self = Some c ∧
    trace σ' = trace σ ++ [Requested request (k8s_token_endpoint_args c)].
Proof.
  intros Hc Hk8s Htok.
  pose proof (_make_k8s_token_request_run σ self request c Hc) as H1.
  rewrite Hk8s, Htok in H1. cbn zeta in H1.
  eexists. split; [by apply refresh_step1_raises|]. done.
Qed.

(** C3. When [refresh] is called on a credential: (1) whatever exception it
    raises, the object store, hence the credential's token and expiry, is as
    before; (2) an exception of step 1 is the exception of [refresh], and
    the trace then holds the bootstrap request and nothing else, so no
    exchange request was made; (3) when step 1 returned a token, an
    exception of either exchange collaborator (the token-endpoint request or
    the refresh-grant-response parser) is the exception of [refresh],
    unchanged. *)
Theorem refresh_failure σ self request c :
  heap σ !! self = Some c →
  (∀ e σ', refresh self request σ = (inl e, σ') →
     heap σ' = heap σ ∧ heap σ' !! self = Some c) ∧
  (∀ e σ1, _make_k8s_token_request self request σ = (inl e, σ1) →
     refresh self request σ = (inl e, σ1) ∧
     trace σ1 = trace σ ++ [Requested request (k8s_token_endpoint_args c)]) ∧
  (∀ k8s_token σ1 subject e,
     _make_k8s_token_request self request σ = (inr k8s_token, σ1) →
     subject_token k8s_token = inr subject →
     (_token_endpoint_request request (ais_token_endpoint_args c subject)
        (trace σ1) = inl e ∨
      ∃ ais_response_data,
        _token_endpoint_request request (ais_token_endpoint_args c subject)
          (trace σ1) = inr ais_response_data ∧
        _handle_refresh_grant_response ais_response_data None = inl e) →
     ∃ σ', refresh self request σ = (inl e, σ') ∧ heap σ' = heap σ).
Proof.
  intros Hc. split_and!.
  - intros e σ'. unfold gdch_credentials.refresh. run.
    destruct (_make_k8s_token_request self request σ) as [[e1|tok] σ1] eqn:H1.
    { intros [= <- <-].
      assert (heap σ1 = heap σ) as ->
        by eauto using _make_k8s_token_request_heap. done. }
    assert (heap σ1 = heap σ) as Hh1
      by eauto using _make_k8s_token_request_heap.
    destruct (_make_ais_token_request self tok request σ1)
      as [[e2|[atok aexp]] σ2] eqn:H2.
    { intros [= <- <-].
      assert (heap σ2 = heap σ1) as ->.
      { eapply _make_ais_token_request_heap; [|done]. by rewrite Hh1. }
      by rewrite Hh1. }
    assert (heap σ2 = heap σ1) as Hh2.
    { eapply _make_ais_token_request_heap; [|done]. by rewrite Hh1. }
    cbn. rewrite Hh2, Hh1, Hc. cbn. by rewrite lookup_insert_eq.
  - intros e σ1 H1. split; [by apply refresh_step1_raises|].
    rewrite (_make_k8s_token_request_run _ _ _ c Hc) in H1. cbn zeta in H1.
    repeat case_match; by simplify_eq.
  - intros k8s_token σ1 subject e H1 Hsub He.
    assert (heap σ1 = heap σ) as Hh1
      by eauto using _make_k8s_token_request_heap.
    assert (heap σ1 !! self = Some c) as Hc1 by by rewrite Hh1.
    pose proof (_make_ais_token_request_run σ1 self request c k8s_token Hc1)
      as H2.
    rewrite Hsub in H2. cbn zeta in H2.
    destruct He as [He|(data & Hdata & He)].
    + rewrite He in H2. eexists. split; [by eapply refresh_step2_raises|].
      done.
    + rewrite Hdata, He in H2. eexists.
      split; [by eapply refresh_step2_raises|]. done.
Qed.

(** C4. When step 1 returned a token that line 95 turns into a subject
    token, the next event of [refresh] after step 1 is the exchange request,
    and it is the only one: it goes to the exchange endpoint, without client
    certificate, with the configured exchange CA path; its body has exactly
    the keys grant_type, audience, requested_token_type, subject_token and
    subject_token_type, with the three protocol constants, the credential's
    audience, and the base64 text of the UTF-8 octets of the bootstrap
    token. *)
Theorem exchange_request σ self request c k8s_token σ1 subject :
  heap σ !! self = Some c →
  _make_k8s_token_request self request σ = (inr k8s_token, σ1) →
  subject_token k8s_token = inr subject →
  ∃ res σ' args rest,
    refresh self request σ = (res, σ') ∧
    trace σ' = trace σ1 ++ Requested request args :: rest ∧
    (∀ r a, Requested r a ∉ rest) ∧
    token_uri args = _ais_token_endpoint c ∧
    cert args = None ∧
    verify args = _ais_ca_cert_path c ∧
    dom (body args)
    = {[ str "grant_type"; str "audience"; str "requested_token_type";
         str "subject_token"; str "subject_token_type" ]} ∧
    body args !! str "grant_type"
    = Some (str "urn:ietf:params:oauth:token-type:token-exchange") ∧
    body args !! str "audience" = Some (_audience c) ∧
    body args !! str "requested_token_type"
    = Some (str "urn:ietf:params:oauth:token-type:access_token") ∧
    body args !! str "subject_token_type"
    = Some (str "urn:k8s:params:oauth:token-type:serviceaccount") ∧
    body args !! str "subject_token" = Some subject ∧
    ∃ tkn bs, k8s_token = JStr tkn ∧ utf8_encode tkn = Some bs
              ∧ subject = b64encode bs.
Proof.
  intros Hc H1 Hsub.
  destruct (refresh_exchange_sent _ _ _ _ _ _ _ Hc H1 Hsub)
    as (res & σ' & rest & Hrun & Htr & Hrest).
  exists res, σ', (ais_token_endpoint_args c subject), rest.
  split_and!;
    first [ done
          | apply ais_request_body_dom
          | apply ais_request_body_lookup; set_solver
          | by apply subject_token_inr ].
Qed.

(** C5. When step 1 has produced the bootstrap token string [tkn], every
    request that [refresh] makes after step 1 carries in the
    [subject_token] field of its body the base64 text of the UTF-8 octets of
    [tkn], one application of base64, and base64-decoding that value gives
    [tkn] back; and when UTF-8 encodes [tkn], such a request is made,
    right after step 1. *)
Theorem subject_token_roundtrip σ self request c tkn σ1 :
  heap σ !! self = Some c →
  _make_k8s_token_request self request σ = (inr (JStr tkn), σ1) →
  ∃ res σ' sent,
    refresh self request σ = (res, σ') ∧
    trace σ' = trace σ1 ++ sent ∧
    (∀ r args, Requested r args ∈ sent →
       ∃ value bs,
         body args !! str "subject_token" = Some value ∧
         utf8_encode tkn = Some bs ∧
         value = b64encode bs ∧
         b64decode_str value = Some tkn) ∧
    (is_Some (utf8_encode tkn) →
       ∃ args rest, sent = Requested request args :: rest).
Proof.
  intros Hc H1.
  destruct (subject_token (JStr tkn)) as [e|subject] eqn:Hsub.
  - exists (inl e), σ1, []. split; [by eapply refresh_encode_raises|].
    split; [by rewrite app_nil_r|]. split.
    + intros r args Hin. by inv Hin.
    + intros [bs Hbs]. exfalso.
      assert (subject_token (JStr tkn) = inr (b64encode bs)) as Hok
        by (apply subject_token_inr; by exists tkn, bs).
      congruence.
  - destruct (refresh_exchange_sent _ _ _ _ _ _ _ Hc H1 Hsub)
      as (res & σ' & rest & Hrun & Htr & Hrest).
    apply subject_token_inr in Hsub as (t & bs & [= <-] & Hbs & ->).
    eexists res, σ', _. split; [done|]. split; [done|]. split.
    + intros r args Hin. apply elem_of_cons in Hin as [[= -> ->]|Hin];
        [|by destruct (Hrest r args)].
      exists (b64encode bs), bs.
      split; [apply ais_request_body_lookup; set_solver|].
      split; [done|]. split; [done|].
      unfold b64decode_str.
      rewrite utf8_encode_ascii
        by eauto using b64encode_ascii, utf8_encode_bytes.
      cbn [mbind option_bind].
      rewrite b64decode_b64encode by eauto using utf8_encode_bytes.
      cbn [mbind option_bind]. by apply utf8_decode_encode.
    + intros _. by eexists _, _.
Qed.

(** C8. Whatever a [refresh] of a credential leads to, the first thing it
    does is the bootstrap request: to the configured bootstrap endpoint,
    with an empty body, with the configured client certificate and key, the
    configured bootstrap CA path, and 201 as the expected status. *)
Theorem bootstrap_request σ self request c :
  heap σ !! self = Some c →
  ∃ res σ' args rest,
    refresh self request σ = (res, σ') ∧
    trace σ' = trace σ ++ Requested request args :: rest ∧
    token_uri args = _k8s_token_endpoint c ∧
    body args = ∅ ∧
    access_token args = None ∧
    use_json args = true ∧
    cert args = Some (_k8s_cert_path c, _k8s_key_path c) ∧
    verify args = _k8s_ca_cert_path c ∧
    expected_status args = Some 201.
Proof.
  intros Hc.
  destruct (_make_k8s_token_request self request σ) as [[e|tok] σ1] eqn:H1.
  { destruct (_make_k8s_token_request_trace _ _ _ _ _ _ Hc H1)
      as (rest & Htr & _).
    eexists _, _, _, rest. split; [by apply refresh_step1_raises|]. done. }
  destruct (_make_k8s_token_request_trace _ _ _ _ _ _ Hc H1)
    as (rest1 & Htr1 & _).
  assert (heap σ1 = heap σ) as Hh1
    by eauto using _make_k8s_token_request_heap.
  assert (heap σ1 !! self = Some c) as Hc1 by by rewrite Hh1.
  destruct (_make_ais_token_request self tok request σ1)
    as [[e|[atok aexp]] σ2] eqn:H2;
    destruct (_make_ais_token_request_trace _ _ _ _ _ _ _ Hc1 H2)
      as (rest2 & Htr2).
  - eexists _, _, _, (rest1 ++ rest2).
    split; [by eapply refresh_step2_raises|].
    rewrite Htr2, Htr1, <- app_assoc. done.
  - eexists _, _, _, (rest1 ++ rest2).
    split; [by eapply refresh_steps_return|].
    cbn [trace]. rewrite Htr2, Htr1, <- app_assoc. done.
Qed.

(** C9. When a [refresh] of a credential returns, the bootstrap response
    held a string [k8s_token] under [status.token] and the run stored an
    access token [ais_token]; the run did four things, in this order: the
    bootstrap request, printing "received k8s token: " followed by
    [k8s_token] as it is, the exchange request, printing
    "received ais token: " followed by [ais_token] as it is; the standard
    output received these two lines. *)
Theorem refresh_prints_tokens σ self request c σ' :
  heap σ !! self = Some c →
  refresh self request σ = (inr (), σ') →
  ∃ k8s_response_data k8s_token subject ais_token c',
    _token_endpoint_request request (k8s_token_endpoint_args c) (trace σ)
    = inr k8s_response_data ∧
    status_token k8s_response_data = inr (JStr k8s_token) ∧
    heap σ' !! self = Some c' ∧
    token c' = Some ais_token ∧
    trace σ' = trace σ ++
      [ Requested request (k8s_token_endpoint_args c);
        Printed (str "received k8s token: " ++ k8s_token);
        Requested request (ais_token_endpoint_args c subject);
        Printed (str "received ais token: " ++ ais_token) ] ∧
    stdout (trace σ') = stdout (trace σ)
      ++ (str "received k8s token: " ++ k8s_token ++ [10])
      ++ (str "received ais token: " ++ ais_token ++ [10]).
Proof.
  intros Hc Hrun. rewrite (refresh_run _ _ _ c Hc) in Hrun.
  cbn zeta in Hrun. cbn [trace] in Hrun.
  destruct (_token_endpoint_request request (k8s_token_endpoint_args c)
              (trace σ)) as [e|data] eqn:Hdata; [done|].
  destruct (status_token data) as [e|tok] eqn:Htok; [by destruct e|].
  destruct (sys_stdout_write _ (k8s_line _ _ _ _)) as [e|[]];
    [by destruct e|].
  destruct (subject_token tok) as [e|subject] eqn:Hsub; [done|].
  apply subject_token_inr in Hsub as (tkn & bs & -> & Hbs & ->).
  destruct (_token_endpoint_request request (ais_token_endpoint_args _ _) _)
    as [e|adata]; [done|].
  destruct (_handle_refresh_grant_response adata None)
    as [e|[[[atok rt] aexp] extra]]; [done|].
  destruct (sys_stdout_write _ (str "received ais token: " ++ _)) as [e|[]];
    [done|].
  injection Hrun as <-.
  eexists data, tkn, (b64encode bs), atok, _.
  cbn [trace heap]. rewrite lookup_insert_eq.
  unfold gdch_credentials.k8s_events, gdch_credentials.k8s_line, ais_events.
  cbn [gdch_credentials.py_str].
  split_and!; try done.
  - by rewrite <- app_assoc.
  - rewrite <- app_assoc, !stdout_app. cbn [stdout app].
    by rewrite ?app_nil_r, <- ?app_assoc.
Qed.

(** ** The derivations *)

(** C6. [with_audience] on a credential returns a new instance (an address
    not in use before) whose audience is the given one, whose CA,
    certificate and key paths and both endpoints are those of the original,
    and whose token and expiry are absent, whatever the token state of the
    original. *)
Theorem with_audience_new_instance σ self c audience :
  heap σ !! self = Some c →
  ∃ new σ' c',
    with_audience self audience σ = (inr new, σ') ∧
    heap σ !! new = None ∧ new ≠ self ∧
    heap σ' !! new = Some c' ∧
    _audience c' = audience ∧
    _k8s_ca_cert_path c' = _k8s_ca_cert_path c ∧
    _k8s_cert_path c' = _k8s_cert_path c ∧
    _k8s_key_path c' = _k8s_key_path c ∧
    _k8s_token_endpoint c' = _k8s_token_endpoint c ∧
    _ais_ca_cert_path c' = _ais_ca_cert_path c ∧
    _ais_token_endpoint c' = _ais_token_endpoint c ∧
    token c' = None ∧
    expiry c' = None.
Proof.
  intros Hc. eexists _, _, _.
  split; [by apply with_audience_run|]. cbn [heap].
  rewrite lookup_insert_eq. split_and!; try done.
  - apply fresh_loc_unused.
  - intros Heq. pose proof (fresh_loc_unused (heap σ)) as Hf.
    rewrite Heq, Hc in Hf. done.
Qed.

(** C7. [with_quota_project] on a credential returns a new instance (an
    address not in use before) whose quota project is the given one, whose
    audience, CA, certificate and key paths and both endpoints are those of
    the original, and whose token and expiry are absent. *)
Theorem with_quota_project_new_instance σ self c quota_project_id :
  heap σ !! self = Some c →
  ∃ new σ' c',
    with_quota_project self quota_project_id σ = (inr new, σ') ∧
    heap σ !! new = None ∧ new ≠ self ∧
    heap σ' !! new = Some c' ∧
    _quota_project_id c' = quota_project_id ∧
    _audience c' = _audience c ∧
    _k8s_ca_cert_path c' = _k8s_ca_cert_path c ∧
    _k8s_cert_path c' = _k8s_cert_path c ∧
    _k8s_key_path c' = _k8s_key_path c ∧
    _k8s_token_endpoint c' = _k8s_token_endpoint c ∧
    _ais_ca_cert_path c' = _ais_ca_cert_path c ∧
    _ais_token_endpoint c' = _ais_token_endpoint c ∧
    token c' = None ∧
    expiry c' = None.
Proof.
  intros Hc. eexists _, _, _.
  split; [by apply with_quota_project_run|]. cbn [heap].
  rewrite lookup_insert_eq. split_and!; try done.
  - apply fresh_loc_unused.
  - intros Heq. pose proof (fresh_loc_unused (heap σ)) as Hf.
    rewrite Heq, Hc in Hf. done.
Qed.

(** C10. The instance that [with_audience] returns is a new one (its
    address was not in use and is not that of the original) and it has the
    quota project of the original; and after [with_audience] as after
    [with_quota_project], which also returns a new instance, the original
    is exactly as before, with all its configuration and its token state,
    as is every other object that existed, and nothing was requested or
    printed. *)
Theorem derivations_frame σ self c audience quota_project_id :
  heap σ !! self = Some c →
  (∃ new σ' c',
     with_audience self audience σ = (inr new, σ') ∧
     heap σ !! new = None ∧ new ≠ self ∧
     heap σ' !! new = Some c' ∧
     _quota_project_id c' = _quota_project_id c ∧
     heap σ' !! self = Some c ∧
     (∀ l, l ≠ new → heap σ' !! l = heap σ !! l) ∧
     trace σ' = trace σ) ∧
  (∃ new σ',
     with_quota_project self quota_project_id σ = (inr new, σ') ∧
     heap σ !! new = None ∧ new ≠ self ∧
     is_Some (heap σ' !! new) ∧
     heap σ' !! self = Some c ∧
     (∀ l, l ≠ new → heap σ' !! l = heap σ !! l) ∧
     trace σ' = trace σ).
Proof.
  intros Hc.
  assert (fresh (dom (heap σ)) ≠ self) as Hne.
  { intros Heq. pose proof (fresh_loc_unused (heap σ)) as Hf.
    rewrite Heq, Hc in Hf. done. }
  split.
  - eexists _, _, _. split; [by apply with_audience_run|]. cbn [heap trace].
    rewrite lookup_insert_eq.
    split; [apply fresh_loc_unused|]. split_and!; try done.
    + by rewrite lookup_insert_ne.
    + intros l Hl. by rewrite lookup_insert_ne.
  - eexists _, _. split; [by apply with_quota_project_run|].
    cbn [heap trace]. rewrite lookup_insert_eq.
    split; [apply fresh_loc_unused|]. split_and!; try done.
    + by rewrite lookup_insert_ne.
    + intros l Hl. by rewrite lookup_insert_ne.
Qed.

End properties.

(** ** The properties on the concrete run *)

Example ex_refresh_returns :
  (ex_refresh ex_k8s_response ex_state).1 = inr ().
Proof. by vm_compute. Qed.

Example ex_refresh_token :
  token <$> heap (ex_refresh ex_k8s_response ex_state).2 !! 0%nat
  = Some (Some (str "final-xyz")).
Proof. by vm_compute. Qed.

Example ex_refresh_expiry :
  expiry <$> heap (ex_refresh ex_k8s_response ex_state).2 !! 0%nat
  = Some (Some 1700003600).
Proof. by vm_compute. Qed.

Example ex_refresh_no_token_raises :
  (ex_refresh ex_k8s_response_no_token ex_state).1
  = inl (RefreshError (str "No access token in k8s token response.")
           ex_k8s_response_no_token (Some (KeyError (str "token")))).
Proof. by vm_compute. Qed.

Example ex_refresh_no_token_state :
  token <$> heap (ex_refresh ex_k8s_response_no_token ex_state).2 !! 0%nat
  = Some None.
Proof. by vm_compute. Qed.

(** A [status.token] that is no string is printed and then stops step 2
    before any exchange request; one with a lone surrogate already stops
    the print of line 86, on a standard output with strict UTF-8. *)
Example ex_refresh_token_not_str :
  let k8s_response :=
    JDict {[ str "status" := JDict {[ str "token" := JInt 5 ]} ]} in
  (ex_refresh k8s_response ex_state).1 = inl AttributeError.
Proof. by vm_compute. Qed.

Example ex_refresh_token_not_str_printed :
  let k8s_response :=
    JDict {[ str "status" := JDict {[ str "token" := JInt 5 ]} ]} in
  stdout (trace (ex_refresh k8s_response ex_state).2)
  = str "received k8s token: 5" ++ [10].
Proof. by vm_compute. Qed.

Example ex_refresh_token_surrogate :
  let k8s_response :=
    JDict {[ str "status" := JDict {[ str "token" := JStr [0xD800] ]} ]} in
  (ex_refresh k8s_response ex_state).1 = inl UnicodeEncodeError ∧
  stdout (trace (ex_refresh k8s_response ex_state).2) = [].
Proof. by vm_compute. Qed.

(** A [status] that is no dict is a [TypeError], which the handler of line 88
    lets through. *)
Example ex_refresh_status_not_dict :
  let k8s_response := JDict {[ str "status" := JStr (str "ok") ]} in
  (ex_refresh k8s_response ex_state).1 = inl TypeError.
Proof. by vm_compute. Qed.



Lemma refresh_no_k8s_token_witness :
  ∃ σ',
    ex_refresh ex_k8s_response_no_token ex_state_refreshed
    = (inl (RefreshError (str "No access token in k8s token response.")
              ex_k8s_response_no_token (Some (KeyError (str "token")))), σ') ∧
    heap σ' !! 0%nat = Some ex_refreshed.
Proof.
  destruct (refresh_no_k8s_token
              (ex_token_endpoint_request ex_k8s_response_no_token)
              (ex_handle_refresh_grant_response 1700000000) ex_repr
              ex_sys_stdout_write
              ex_state_refreshed 0%nat () ex_refreshed
              ex_k8s_response_no_token (str "token"))
    as (σ' & Hrun & _ & Hc & _);
    [by vm_compute..|].
  by exists σ'.
Defined.

(** C2, with the message as the specification words it, fails: on a
    bootstrap response whose
    [status] has no [token], the lookup raises [KeyError], and the exception
    of [refresh] does not have the message
    "no access token in bootstrap response". *)
Lemma refresh_no_k8s_token_message_counterexample :
  status_token ex_k8s_response_no_token = inl (KeyError (str "token")) ∧
  ¬ ∃ cause σ',
      ex_refresh ex_k8s_response_no_token ex_state
      = (inl (RefreshError (str "no access token in bootstrap response")
                ex_k8s_response_no_token cause), σ').
Proof.
  split; [by vm_compute|].
  intros (cause & σ' & Hrun). vm_compute in Hrun. discriminate Hrun.
Qed.

Lemma refresh_failure_witness :
  ∃ e σ1,
    ex_refresh ex_k8s_response_no_token ex_state_refreshed = (inl e, σ1) ∧
    heap σ1 !! 0%nat = Some ex_refreshed ∧
    trace σ1 = [Requested () (k8s_token_endpoint_args ex_refreshed)].
Proof.
  destruct (refresh_failure
              (ex_token_endpoint_request ex_k8s_response_no_token)
              (ex_handle_refresh_grant_response 1700000000) ex_repr
              ex_sys_stdout_write
              ex_state_refreshed 0%nat () ex_refreshed)
    as (Hany & Hstep1 & _); [by vm_compute|].
  destruct (Hstep1
              (RefreshError (str "No access token in k8s token response.")
                 ex_k8s_response_no_token (Some (KeyError (str "token"))))
              {| heap := heap ex_state_refreshed;
                 trace := [Requested ()
                             (k8s_token_endpoint_args ex_refreshed)] |})
    as [Hrun Htrace]; [by vm_compute|].
  eexists _, _. split; [exact Hrun|]. split; [|exact Htrace].
  by destruct (Hany _ _ Hrun).
Defined.

Lemma exchange_request_witness :
  ∃ res σ' args rest,
    ex_refresh ex_k8s_response ex_state = (res, σ') ∧
    trace σ' = k8s_events ex_repr [] () ex_credentials (JStr (str "boot-abc"))
               ++ Requested () args :: rest ∧
    token_uri args = str "https://ais.local/token" ∧
    cert args = None ∧
    verify args = str "/etc/ais/ca.crt" ∧
    body args !! str "audience" = Some (str "https://service.local") ∧
    body args !! str "subject_token" = Some (str "Ym9vdC1hYmM=").
Proof.
  destruct (exchange_request
              (ex_token_endpoint_request ex_k8s_response)
              (ex_handle_refresh_grant_response 1700000000) ex_repr
              ex_sys_stdout_write
              ex_state 0%nat () ex_credentials (JStr (str "boot-abc"))
              {| heap := heap ex_state;
                 trace := k8s_events ex_repr [] () ex_credentials
                            (JStr (str "boot-abc")) |}
              (str "Ym9vdC1hYmM="))
    as (res & σ' & args & rest & Hrun & Htr & _ & Huri & Hcert & Hver & _
        & _ & Haud & _ & _ & Hsub & _);
    [by vm_compute..|].
  by exists res, σ', args, rest.
Defined.

Lemma subject_token_roundtrip_witness :
  ∃ res σ' sent,
    ex_refresh ex_k8s_response ex_state = (res, σ') ∧
    (∃ args rest, sent = Requested () args :: rest) ∧
    ∀ r args, Requested r args ∈ sent →
      ∃ value, body args !! str "subject_token" = Some value ∧
               b64decode_str value = Some (str "boot-abc").
Proof.
  destruct (subject_token_roundtrip
              (ex_token_endpoint_request ex_k8s_response)
              (ex_handle_refresh_grant_response 1700000000) ex_repr
              ex_sys_stdout_write ex_state 0%nat () ex_credentials
              (str "boot-abc")
              {| heap := heap ex_state;
                 trace := k8s_events ex_repr [] () ex_credentials
                            (JStr (str "boot-abc")) |})
    as (res & σ' & sent & Hrun & _ & Hall & Hsent);
    [by vm_compute..|].
  exists res, σ', sent. split; [exact Hrun|].
  split; [apply Hsent; eexists; by vm_compute|].
  intros r args Hin.
  destruct (Hall r args Hin) as (value & bs & Hv & _ & _ & Hd).
  by exists value.
Defined.

Lemma bootstrap_request_witness :
  ∃ res σ' args rest,
    ex_refresh ex_k8s_response ex_state = (res, σ') ∧
    trace σ' = Requested () args :: rest ∧
    token_uri args = str "https://k8s.local/token" ∧
    body args = ∅ ∧
    cert args = Some (str "/etc/k8s/client.crt", str "/etc/k8s/client.key") ∧
    verify args = str "/etc/k8s/ca.crt" ∧
    expected_status args = Some 201.
Proof.
  destruct (bootstrap_request
              (ex_token_endpoint_request ex_k8s_response)
              (ex_handle_refresh_grant_response 1700000000) ex_repr
              ex_sys_stdout_write
              ex_state 0%nat () ex_credentials)
    as (res & σ' & args & rest & Hrun & Htr & Huri & Hbody & _ & _ & Hcert
        & Hver & Hstatus);
    [by vm_compute|].
  by exists res, σ', args, rest.
Defined.

Lemma refresh_prints_tokens_witness :
  ∃ σ',
    ex_refresh ex_k8s_response ex_state = (inr (), σ') ∧
    stdout (trace σ')
    = str "received k8s token: boot-abc" ++ [10]
      ++ str "received ais token: final-xyz" ++ [10].
Proof.
  destruct (refresh_prints_tokens
              (ex_token_endpoint_request ex_k8s_response)
              (ex_handle_refresh_grant_response 1700000000) ex_repr
              ex_sys_stdout_write
              ex_state 0%nat () ex_credentials
              (ex_refresh ex_k8s_response ex_state).2)
    as (data & k8s_token & subject & ais_token & c' & _ & _ & _ & _ & _
        & Hout);
    [by vm_compute..|].
  exists (ex_refresh ex_k8s_response ex_state).2.
  split; [by vm_compute|]. by vm_compute.
Defined.

Lemma with_audience_new_instance_witness :
  ∃ new σ' c',
    with_audience 0%nat (str "https://other.local") ex_state_refreshed
    = (inr new, σ') ∧
    new ≠ 0%nat ∧
    heap σ' !! new = Some c' ∧
    _audience c' = str "https://other.local" ∧
    _k8s_cert_path c' = str "/etc/k8s/client.crt" ∧
    token c' = None ∧
    expiry c' = None.
Proof.
  destruct (with_audience_new_instance ex_state_refreshed 0%nat ex_refreshed
              (str "https://other.local"))
    as (new & σ' & c' & Hrun & _ & Hne & Hc' & Haud & _ & Hcert & _ & _ & _
        & _ & Htok & Hexp);
    [by vm_compute|].
  by exists new, σ', c'.
Defined.

Lemma with_quota_project_new_instance_witness :
  ∃ new σ' c',
    with_quota_project 0%nat (Some (str "billing")) ex_state_refreshed
    = (inr new, σ') ∧
    new ≠ 0%nat ∧
    heap σ' !! new = Some c' ∧
    _quota_project_id c' = Some (str "billing") ∧
    _audience c' = str "https://service.local" ∧
    token c' = None ∧
    expiry c' = None.
Proof.
  destruct (with_quota_project_new_instance ex_state_refreshed 0%nat
              ex_refreshed (Some (str "billing")))
    as (new & σ' & c' & Hrun & _ & Hne & Hc' & Hq & Haud & _ & _ & _ & _ & _
        & _ & Htok & Hexp);
    [by vm_compute|].
  by exists new, σ', c'.
Defined.

Lemma derivations_frame_witness :
  (∃ new σ' c',
     with_audience 0%nat (str "https://other.local") ex_state_billed
     = (inr new, σ') ∧
     new ≠ 0%nat ∧
     heap σ' !! new = Some c' ∧
     _quota_project_id c' = Some (str "billing-0") ∧
     heap σ' !! 0%nat = Some ex_billed) ∧
  (∃ new σ',
     with_quota_project 0%nat (Some (str "billing")) ex_state_billed
     = (inr new, σ') ∧
     new ≠ 0%nat ∧
     heap σ' !! 0%nat = Some ex_billed).
Proof.
  destruct (derivations_frame ex_state_billed 0%nat ex_billed
              (str "https://other.local") (Some (str "billing")))
    as [(new & σ' & c' & Hrun & _ & Hne & Hc' & Hq & Hself & _)
        (new2 & σ2 & Hrun2 & _ & Hne2 & _ & Hself2 & _)];
    [by vm_compute|].
  split; [by exists new, σ', c'|by exists new2, σ2].
Defined.

(** ** More on the codecs of line 95 *)

Lemma utf8_encode_char_None c : utf8_encode_char c = None ↔ ¬ encodable c.
Proof.
  unfold utf8_encode_char, encodable. zcases; split; try done; try lia.
  all: intros H; exfalso; apply H; lia.
Qed.

Lemma utf8_encode_None s :
  utf8_encode s = None ↔ ∃ c, c ∈ s ∧ ¬ encodable c.
Proof.
  induction s as [|c s IH]; simpl.
  - split; [done|]. intros (c & Hc & _). by inv Hc.
  - destruct (utf8_encode_char c) as [bs|] eqn:Hc.
    + destruct (utf8_encode s) as [bs'|].
      * split; [done|]. intros (c' & Hin & Hc').
        apply elem_of_cons in Hin as [->|Hin].
        -- apply utf8_encode_char_None in Hc'. congruence.
        -- assert (Some bs' = None) as H by (apply IH; eauto). done.
      * split; [|done]. intros _.
        destruct (proj1 IH eq_refl) as (c' & Hin & Hc').
        exists c'. split; [by right|done].
    + split; [|done]. intros _. exists c. split; [by left|].
      by apply utf8_encode_char_None.
Qed.

Lemma b64_char_is_b64 i : 0 <= i < 64 → is_b64 (b64_char i).
Proof. intros Hi. left. rewrite b64_index_char by done. by eexists. Qed.

Lemma b64encode_is_b64 bs : Forall is_byte bs → Forall is_b64 (b64encode bs).
Proof.
  induction bs as [|b0|b0 b1|b0 b1 b2 r IH] using list_ind3;
    intros Hbs; cbn [b64encode].
  - constructor.
  - apply Forall_cons_1 in Hbs as [H0 _]. unfold is_byte in *.
    repeat first [apply Forall_cons_2 | apply Forall_nil_2];
      first [apply b64_char_is_b64; zlia | by right].
  - apply Forall_cons_1 in Hbs as [H0 Hbs].
    apply Forall_cons_1 in Hbs as [H1 _]. unfold is_byte in *.
    repeat first [apply Forall_cons_2 | apply Forall_nil_2];
      first [apply b64_char_is_b64; zlia | by right].
  - apply Forall_cons_1 in Hbs as [H0 Hbs].
    apply Forall_cons_1 in Hbs as [H1 Hbs].
    apply Forall_cons_1 in Hbs as [H2 Hbs]. unfold is_byte in *.
    repeat apply Forall_cons_2; [apply b64_char_is_b64; zlia..|by apply IH].
Qed.

Lemma b64encode_length bs :
  (length (b64encode bs) = 4 * ((length bs + 2) / 3))%nat.
Proof.
  induction bs as [|b0|b0 b1|b0 b1 b2 r IH] using list_ind3;
    cbn [b64encode length]; [done..|].
  rewrite IH.
  replace (S (S (S (length r))) + 2)%nat with (1 * 3 + (length r + 2))%nat
    by lia.
  rewrite Nat.div_add_l by done. lia.
Qed.

(** X3. Line 95 raises [AttributeError] exactly on a value that is no [str],
    [UnicodeEncodeError] exactly on a [str] that holds a code point UTF-8
    does not encode (a surrogate), and nothing else: the final [.decode()]
    never fails. *)
Theorem subject_token_inl k8s_token e :
  subject_token k8s_token = inl e ↔
  ((∀ s, k8s_token ≠ JStr s) ∧ e = AttributeError) ∨
  (∃ s c, k8s_token = JStr s ∧ c ∈ s ∧ ¬ encodable c
          ∧ e = UnicodeEncodeError).
Proof.
  unfold subject_token, encode, decode. split.
  - destruct k8s_token as [| | | |s| |];
      try (intros [= <-]; left; by split).
    destruct (utf8_encode s) as [bs|] eqn:Hbs.
    + by rewrite utf8_decode_ascii
        by eauto using b64encode_ascii, utf8_encode_bytes.
    + intros [= <-]. right.
      apply utf8_encode_None in Hbs as (c & Hin & Hc). by exists s, c.
  - intros [[Hns ->]|(s & c & -> & Hin & Hc & ->)].
    + destruct k8s_token; try done. by destruct (Hns s).
    + assert (utf8_encode s = None) as -> by (apply utf8_encode_None; eauto).
      done.
Qed.

(** X10. Line 95 is injective: two bootstrap token strings with the same
    subject token are the same string. *)
Theorem subject_token_injective s1 s2 subject :
  subject_token (JStr s1) = inr subject →
  subject_token (JStr s2) = inr subject →
  s1 = s2.
Proof.
  intros H1 H2.
  apply subject_token_inr in H1 as (t1 & bs1 & [= <-] & Hbs1 & ->).
  apply subject_token_inr in H2 as (t2 & bs2 & [= <-] & Hbs2 & Heq).
  assert (b64decode (b64encode bs1) = b64decode (b64encode bs2)) as Hdec
    by by rewrite Heq.
  rewrite !b64decode_b64encode in Hdec by eauto using utf8_encode_bytes.
  injection Hdec as ->.
  apply utf8_decode_encode in Hbs1, Hbs2. congruence.
Qed.

(** X11. The subject token of line 95 is made of characters of the base64
    alphabet and of padding only, all of them ASCII, and its length is a
    multiple of four. *)
Theorem subject_token_alphabet k8s_token subject :
  subject_token k8s_token = inr subject →
  Forall is_b64 subject ∧ Forall is_ascii subject ∧
  (length subject `mod` 4 = 0)%nat.
Proof.
  intros H. apply subject_token_inr in H as (t & bs & -> & Hbs & ->).
  split_and!.
  - eauto using b64encode_is_b64, utf8_encode_bytes.
  - eauto using b64encode_ascii, utf8_encode_bytes.
  - rewrite b64encode_length, Nat.mul_comm. by apply Nat.Div0.mod_mul.
Qed.

Lemma subject_token_injective_witness : str "boot-abc" = str "boot-abc".
Proof.
  apply (subject_token_injective (str "boot-abc") (str "boot-abc")
           (str "Ym9vdC1hYmM=")); by vm_compute.
Defined.

Lemma subject_token_alphabet_witness :
  Forall is_b64 (str "Ym9vdC1hYmM=") ∧ Forall is_ascii (str "Ym9vdC1hYmM=") ∧
  (length (str "Ym9vdC1hYmM=") `mod` 4 = 0)%nat.
Proof.
  apply (subject_token_alphabet (JStr (str "boot-abc"))). by vm_compute.
Defined.

(** ** More on the refresh and the derivations *)

Section more_properties.

Context {Request : Type}.
Variable _token_endpoint_request :
  Request → endpoint_args → list (@event Request) → result json.
Variable _handle_refresh_grant_response :
  json → option pystr →
  result (pystr * option pystr * option datetime * json).
Variable repr : list (@event Request) → json → pystr.
Variable sys_stdout_write : list (@event Request) → pystr → result ().

#[local] Abbreviation _make_k8s_token_request :=
  (_make_k8s_token_request _token_endpoint_request repr sys_stdout_write).
#[local] Abbreviation _make_ais_token_request :=
  (_make_ais_token_request _token_endpoint_request
     _handle_refresh_grant_response sys_stdout_write).
#[local] Abbreviation refresh :=
  (refresh _token_endpoint_request _handle_refresh_grant_response repr
     sys_stdout_write).
#[local] Abbreviation py_str := (py_str repr).
#[local] Abbreviation k8s_line := (k8s_line repr).
#[local] Abbreviation k8s_events := (k8s_events repr).

Implicit Types (σ : @state Request) (self : loc) (request : Request)
  (c : Credentials) (e : exn).

(** X1. The bootstrap call sits outside the [try] of line 84: whatever
    exception the token-endpoint collaborator raises there, a [KeyError]
    included, is the exception of [refresh], not wrapped in a
    [RefreshError]; only that request was made, nothing was printed, and
    the object store is as before. *)
Theorem refresh_bootstrap_call_raises σ self request c e :
  heap σ !! self = Some c →
  _token_endpoint_request request (k8s_token_endpoint_args c) (trace σ)
  = inl e →
  refresh self request σ
  = (inl e, {| heap := heap σ;
               trace := trace σ ++ [Requested request
                                      (k8s_token_endpoint_args c)] |}).
Proof.
  intros Hc He. rewrite (refresh_run _ _ _ _ _ _ _ c Hc). cbn zeta. by rewrite He.
Qed.

(** X2. A bootstrap response that is no dict, or whose [status] is no dict,
    makes the lookup of line 85 raise [TypeError], which the handler of
    line 88 does not catch: [refresh] raises [TypeError] itself, after the
    bootstrap request alone, and the object store is as before. *)
Theorem refresh_bootstrap_response_malformed σ self request c
    k8s_response_data :
  heap σ !! self = Some c →
  _token_endpoint_request request (k8s_token_endpoint_args c) (trace σ)
  = inr k8s_response_data →
  (∀ d, k8s_response_data ≠ JDict d) ∨
  (∃ d status, k8s_response_data = JDict d
               ∧ d !! str "status" = Some status
               ∧ ∀ d', status ≠ JDict d') →
  refresh self request σ
  = (inl TypeError,
     {| heap := heap σ;
        trace := trace σ ++ [Requested request
                               (k8s_token_endpoint_args c)] |}).
Proof.
  intros Hc Hdata Hshape. rewrite (refresh_run _ _ _ _ _ _ _ c Hc). cbn zeta.
  rewrite Hdata.
  assert (status_token k8s_response_data = inl TypeError) as ->; [|done].
  unfold status_token, getitem.
  destruct Hshape as [Hnd|(d & status & -> & Hst & Hnd)].
  - destruct k8s_response_data; try done. by destruct (Hnd d).
  - rewrite Hst. destruct status; try done. by destruct (Hnd d0).
Qed.

(** X4. When the bootstrap response holds a token, the standard output
    takes the line of line 86, and line 95 cannot encode the token,
    [refresh] raises the exception of line 95; the bootstrap request was
    made and the token was printed, no exchange request was made, and the
    object store is as before. *)
Theorem refresh_subject_token_raises σ self request c k8s_response_data
    k8s_token e :
  heap σ !! self = Some c →
  _token_endpoint_request request (k8s_token_endpoint_args c) (trace σ)
  = inr k8s_response_data →
  status_token k8s_response_data = inr k8s_token →
  sys_stdout_write
    (trace σ ++ [Requested request (k8s_token_endpoint_args c)])
    (k8s_line (trace σ) request c k8s_token) = inr () →
  subject_token k8s_token = inl e →
  refresh self request σ
  = (inl e, {| heap := heap σ;
               trace := trace σ ++
                 [Requested request (k8s_token_endpoint_args c);
                  Printed (str "received k8s token: "
                           ++ py_str
                                (trace σ ++
                                 [Requested request
                                    (k8s_token_endpoint_args c)])
                                k8s_token)] |}).
Proof.
  intros Hc Hdata Htok Hout Hsub.
  rewrite (refresh_run _ _ _ _ _ _ _ c Hc). cbn zeta. cbn [trace].
  by rewrite Hdata, Htok, Hout, Hsub.
Qed.


(** X6. Whatever a [refresh] leads to, it creates and deletes no object, it
    leaves every object other than [self] as it was, and of [self] it
    changes at most the token and the expiry: the paths, the endpoints, the
    audience and the quota project are as before. *)
Theorem refresh_frame σ self request c res σ' :
  heap σ !! self = Some c →
  refresh self request σ = (res, σ') →
  dom (heap σ') = dom (heap σ) ∧
  (∀ l, l ≠ self → heap σ' !! l = heap σ !! l) ∧
  ∃ c', heap σ' !! self = Some c' ∧
    _k8s_ca_cert_path c' = _k8s_ca_cert_path c ∧
    _k8s_cert_path c' = _k8s_cert_path c ∧
    _k8s_key_path c' = _k8s_key_path c ∧
    _k8s_token_endpoint c' = _k8s_token_endpoint c ∧
    _ais_ca_cert_path c' = _ais_ca_cert_path c ∧
    _ais_token_endpoint c' = _ais_token_endpoint c ∧
    _audience c' = _audience c ∧
    _quota_project_id c' = _quota_project_id c.
Proof.
  intros Hc. rewrite (refresh_run _ _ _ _ _ _ _ c Hc). cbn zeta.
  assert (∀ c1, dom (<[self := c1]> (heap σ)) = dom (heap σ)) as Hdom.
  { intros c1. rewrite dom_insert_L.
    pose proof (elem_of_dom_2 _ _ _ Hc) as Hin.
    apply set_eq. intros l. rewrite elem_of_union, elem_of_singleton.
    split; [by intros [->|]|by right]. }
  repeat case_match; intros [= <- <-]; cbn [heap];
    try (split_and!; [done|done|by exists c]).
  split_and!; [apply Hdom|intros l Hl; by rewrite lookup_insert_ne|].
  eexists. rewrite lookup_insert_eq. done.
Qed.


(** A [refresh] leaves the objects other than [self] as they were. *)
Lemma refresh_heap_other σ self request c res σ' l :
  heap σ !! self = Some c →
  refresh self request σ = (res, σ') →
  l ≠ self → heap σ' !! l = heap σ !! l.
Proof.
  intros Hc. rewrite (refresh_run _ _ _ _ _ _ _ c Hc). cbn zeta.
  repeat case_match; intros [= <- <-] Hl; cbn [heap]; try done.
  by rewrite lookup_insert_ne.
Qed.

(** The requests of a [refresh] are the bootstrap request and the exchange
    request of the credential. *)
Lemma refresh_requests σ self request c res σ' r args :
  heap σ !! self = Some c →
  refresh self request σ = (res, σ') →
  Requested r args ∈ trace σ' →
  Requested r args ∈ trace σ ∨
  args = k8s_token_endpoint_args c ∨
  ∃ subject, args = ais_token_endpoint_args c subject.
Proof.
  intros Hc. rewrite (refresh_run _ _ _ _ _ _ _ c Hc). cbn zeta.
  unfold gdch_credentials.k8s_events, ais_events.
  repeat case_match; intros [= <- <-]; cbn [trace]; intros Hin;
    repeat first [ apply elem_of_app in Hin as [Hin|Hin]
                 | apply elem_of_cons in Hin as [Hin|Hin] ];
    first [ by left | by inv Hin | injection Hin as -> -> ]; eauto.
Qed.

(** X7. Refreshing the instance that [with_audience] returned leaves the
    original exactly as it was, token state included, and asks for a token
    for the new audience: every request it makes is the bootstrap request of
    the original's configuration or an exchange request to the original's
    exchange endpoint, with its CA path, whose body names the new
    audience. *)
Theorem refresh_of_derived_instance σ self c audience new σ1 request res σ2 :
  heap σ !! self = Some c →
  with_audience self audience σ = (inr new, σ1) →
  refresh new request σ1 = (res, σ2) →
  heap σ2 !! self = Some c ∧
  ∀ r args, Requested r args ∈ trace σ2 →
    Requested r args ∈ trace σ ∨
    args = k8s_token_endpoint_args c ∨
    (token_uri args = _ais_token_endpoint c ∧
     cert args = None ∧
     verify args = _ais_ca_cert_path c ∧
     body args !! str "audience" = Some audience).
Proof.
  intros Hc. rewrite (with_audience_run _ _ c _ Hc). intros [= <- <-] Hrun.
  set (new := fresh (dom (heap σ))) in *.
  set (c' := __init__ _ _ _ _ _ _ _ _) in *.
  assert (new ≠ self) as Hne.
  { intros Heq. pose proof (fresh_loc_unused (heap σ)) as Hf.
    fold new in Hf. rewrite Heq, Hc in Hf. done. }
  match type of Hrun with refresh _ _ ?s = _ => set (σ1 := s) in * end.
  assert (heap σ1 !! new = Some c') as Hc' by apply lookup_insert_eq.
  split.
  - rewrite (refresh_heap_other _ _ _ _ _ _ self Hc' Hrun) by done.
    cbn. by rewrite lookup_insert_ne.
  - intros r args Hin.
    destruct (refresh_requests _ _ _ _ _ _ _ _ Hc' Hrun Hin)
      as [H|[->|[subject ->]]]; [by left|by right; left|].
    right. right. split_and!;
      first [done | apply ais_request_body_lookup; set_solver].
Qed.

(** X8. Refreshing the original after a derivation leaves the derived
    instance unrefreshed: its token and its expiry are still absent. *)
Theorem refresh_keeps_derived_unrefreshed σ self c audience quota_project_id
    new σ1 request res σ2 :
  heap σ !! self = Some c →
  with_audience self audience σ = (inr new, σ1) ∨
  with_quota_project self quota_project_id σ = (inr new, σ1) →
  refresh self request σ1 = (res, σ2) →
  ∃ c', heap σ2 !! new = Some c' ∧ token c' = None ∧ expiry c' = None.
Proof.
  intros Hc Hder Hrun.
  assert (new ≠ self ∧ heap σ1 !! self = Some c ∧
          ∃ c', heap σ1 !! new = Some c' ∧ token c' = None
                ∧ expiry c' = None) as (Hne & Hc1 & c' & Hc' & Htok & Hexp).
  { assert (fresh (dom (heap σ)) ≠ self) as Hne.
    { intros Heq. pose proof (fresh_loc_unused (heap σ)) as Hf.
      rewrite Heq, Hc in Hf. done. }
    destruct Hder as [Hder|Hder];
      [rewrite (with_audience_run _ _ c _ Hc) in Hder
      |rewrite (with_quota_project_run _ _ c _ Hc) in Hder];
      injection Hder as <- <-; cbn [heap];
      (split; [done|]); (split; [by rewrite lookup_insert_ne|]);
      eexists; by rewrite lookup_insert_eq. }
  exists c'. split; [|done].
  by rewrite (refresh_heap_other _ _ _ _ _ _ new Hc1 Hrun).
Qed.

(** X9. The two derivations commute: changing the audience and then the
    quota project gives an instance with the same attributes as changing
    the quota project and then the audience, namely the original's paths
    and endpoints, the new audience, the new quota project, and no token. *)
Theorem derivations_commute σ self c audience quota_project_id
    n1 σ1 n2 σ2 m1 τ1 m2 τ2 :
  heap σ !! self = Some c →
  with_audience self audience σ = (inr n1, σ1) →
  with_quota_project n1 quota_project_id σ1 = (inr n2, σ2) →
  with_quota_project self quota_project_id σ = (inr m1, τ1) →
  with_audience m1 audience τ1 = (inr m2, τ2) →
  heap σ2 !! n2 = heap τ2 !! m2 ∧
  heap σ2 !! n2
  = Some (__init__ (_k8s_ca_cert_path c) (_k8s_cert_path c)
            (_k8s_key_path c) (_k8s_token_endpoint c) (_ais_ca_cert_path c)
            (_ais_token_endpoint c) audience quota_project_id).
Proof.
  intros Hc. rewrite (with_audience_run _ _ c _ Hc). intros [= <- <-].
  erewrite with_quota_project_run by apply lookup_insert_eq.
  intros [= <- <-].
  rewrite (with_quota_project_run _ _ c _ Hc). intros [= <- <-].
  erewrite with_audience_run by apply lookup_insert_eq.
  intros [= <- <-]. cbn [heap]. by rewrite !lookup_insert_eq.
Qed.

End more_properties.

(** ** The further properties on the concrete run *)

Lemma refresh_bootstrap_call_raises_witness :
  refresh (ex_raising_token_endpoint_request (KeyError (str "status")))
    (ex_handle_refresh_grant_response 1700000000) ex_repr
    ex_sys_stdout_write 0%nat ()
    ex_state_refreshed
  = (inl (KeyError (str "status")),
     {| heap := heap ex_state_refreshed;
        trace := [Requested () (k8s_token_endpoint_args ex_refreshed)] |}).
Proof.
  apply (refresh_bootstrap_call_raises
           (ex_raising_token_endpoint_request (KeyError (str "status")))
           (ex_handle_refresh_grant_response 1700000000) ex_repr
           ex_sys_stdout_write
           ex_state_refreshed 0%nat () ex_refreshed
           (KeyError (str "status"))); by vm_compute.
Defined.

Lemma refresh_bootstrap_response_malformed_witness :
  ex_refresh (JList []) ex_state_refreshed
  = (inl TypeError,
     {| heap := heap ex_state_refreshed;
        trace := [Requested () (k8s_token_endpoint_args ex_refreshed)] |}).
Proof.
  apply (refresh_bootstrap_response_malformed
           (ex_token_endpoint_request (JList []))
           (ex_handle_refresh_grant_response 1700000000) ex_repr
           ex_sys_stdout_write
           ex_state_refreshed 0%nat () ex_refreshed (JList []));
    [by vm_compute..|by left].
Defined.

Lemma refresh_subject_token_raises_witness :
  ex_refresh
    (JDict {[ str "status" := JDict {[ str "token" := JInt 5 ]} ]})
    ex_state_refreshed
  = (inl AttributeError,
     {| heap := heap ex_state_refreshed;
        trace := [Requested () (k8s_token_endpoint_args ex_refreshed);
                  Printed (str "received k8s token: 5")] |}).
Proof.
  apply (refresh_subject_token_raises
           (ex_token_endpoint_request
              (JDict {[ str "status" := JDict {[ str "token" := JInt 5 ]} ]}))
           (ex_handle_refresh_grant_response 1700000000) ex_repr
           ex_sys_stdout_write ex_state_refreshed 0%nat () ex_refreshed
           (JDict {[ str "status" := JDict {[ str "token" := JInt 5 ]} ]})
           (JInt 5) AttributeError); by vm_compute.
Defined.


Lemma refresh_frame_witness :
  ∃ c', heap (ex_refresh ex_k8s_response ex_state_refreshed).2 !! 0%nat
        = Some c' ∧
    _audience c' = str "https://service.local" ∧
    _quota_project_id c' = None.
Proof.
  destruct (refresh_frame
              (ex_token_endpoint_request ex_k8s_response)
              (ex_handle_refresh_grant_response 1700000000) ex_repr
              ex_sys_stdout_write
              ex_state_refreshed 0%nat () ex_refreshed (inr ())
              (ex_refresh ex_k8s_response ex_state_refreshed).2)
    as (_ & _ & c' & Hc' & _ & _ & _ & _ & _ & _ & Haud & Hq);
    [by vm_compute..|].
  by exists c'.
Defined.


Lemma refresh_of_derived_instance_witness :
  heap (refresh (ex_token_endpoint_request ex_k8s_response)
          (ex_handle_refresh_grant_response 1700000000) ex_repr
          ex_sys_stdout_write 1%nat ()
          (with_audience 0%nat (str "https://other.local")
             ex_state_refreshed).2).2 !! 0%nat
  = Some ex_refreshed.
Proof.
  destruct (refresh_of_derived_instance
              (ex_token_endpoint_request ex_k8s_response)
              (ex_handle_refresh_grant_response 1700000000) ex_repr
              ex_sys_stdout_write
              ex_state_refreshed 0%nat ex_refreshed
              (str "https://other.local") 1%nat
              (with_audience 0%nat (str "https://other.local")
                 ex_state_refreshed).2
              ()
              (refresh (ex_token_endpoint_request ex_k8s_response)
                 (ex_handle_refresh_grant_response 1700000000) ex_repr
                 ex_sys_stdout_write
                 1%nat ()
                 (with_audience 0%nat (str "https://other.local")
                    ex_state_refreshed).2).1
              (refresh (ex_token_endpoint_request ex_k8s_response)
                 (ex_handle_refresh_grant_response 1700000000) ex_repr
                 ex_sys_stdout_write
                 1%nat ()
                 (with_audience 0%nat (str "https://other.local")
                    ex_state_refreshed).2).2)
    as [Hself _]; [by vm_compute..|].
  exact Hself.
Defined.

Lemma refresh_keeps_derived_unrefreshed_witness :
  ∃ c', heap (ex_refresh ex_k8s_response
                (with_quota_project 0%nat (Some (str "billing"))
                   ex_state_refreshed).2).2 !! 1%nat = Some c' ∧
    token c' = None ∧ expiry c' = None.
Proof.
  apply (refresh_keeps_derived_unrefreshed
           (ex_token_endpoint_request ex_k8s_response)
           (ex_handle_refresh_grant_response 1700000000) ex_repr
           ex_sys_stdout_write
           ex_state_refreshed 0%nat ex_refreshed (str "unused")
           (Some (str "billing")) 1%nat
           (with_quota_project 0%nat (Some (str "billing"))
              ex_state_refreshed).2
           () (inr ()));
    [by vm_compute|right; by vm_compute|by vm_compute].
Defined.

Lemma derivations_commute_witness :
  heap (with_quota_project 1%nat (Some (str "billing"))
          (with_audience 0%nat (str "https://other.local")
             ex_state_refreshed).2).2 !! 2%nat
  = heap (with_audience 1%nat (str "https://other.local")
            (with_quota_project 0%nat (Some (str "billing"))
               ex_state_refreshed).2).2 !! 2%nat.
Proof.
  destruct (derivations_commute (Request := unit)
              ex_state_refreshed 0%nat ex_refreshed
              (str "https://other.local") (Some (str "billing"))
              1%nat
              (with_audience 0%nat (str "https://other.local")
                 ex_state_refreshed).2
              2%nat
              (with_quota_project 1%nat (Some (str "billing"))
                 (with_audience 0%nat (str "https://other.local")
                    ex_state_refreshed).2).2
              1%nat
              (with_quota_project 0%nat (Some (str "billing"))
                 ex_state_refreshed).2
              2%nat
              (with_audience 1%nat (str "https://other.local")
                 (with_quota_project 0%nat (Some (str "billing"))
                    ex_state_refreshed).2).2)
    as [Heq _]; [by vm_compute..|].
  exact Heq.
Defined.
